(** * structmerge: merging two structs of the same type

    A shallow embedding of [structmerge.go] (package structmerge) and of the
    part of Go's [reflect] package that it calls, followed by the properties
    of [Merge] that the specification states.

    Conventions of the embedding.
    - A [reflect.Value] is a type, the data it holds and the two flags that
      decide [CanSet], [CanAddr] and [CanInterface].
    - A pointer is nil or refers to a variable; the model keeps the content
      of that variable with the pointer.  Writing through a pointer yields
      the pointer with the new content: the functions return the destination
      after the call (state passing).
    - A panic of the Go runtime is the outcome [Panic].
    - The recursion of [mergeValues] is bounded by a fuel argument; [Merge]
      supplies the nesting depth of the destination type, which is always
      enough ([mergeValues_fuel]). *)

From Stdlib Require Import ZArith String List Bool Lia.
From Stdlib Require Import Floats.SpecFloat.
From stdpp Require Import gmap strings list fin_maps.

Set Warnings "-register-all".

Open Scope string_scope.

(** ** Strings: the two functions of package [strings] that are used *)

(** [strings.HasPrefix(s, prefix)] *)
Definition HasPrefix (s prefix : string) : bool := String.prefix prefix s.

(** [strings.Contains(s, substr)] *)
Fixpoint Contains (s substr : string) : bool :=
  HasPrefix s substr ||
  match s with
  | EmptyString => false
  | String _ s' => Contains s' substr
  end.

(** ** Package reflect *)

Module reflect.

(** [reflect.Kind], in the order of the Go declaration. *)
Inductive Kind : Set :=
  | Invalid | Bool
  | Int | Int8 | Int16 | Int32 | Int64
  | Uint | Uint8 | Uint16 | Uint32 | Uint64 | Uintptr
  | Float32 | Float64 | Complex64 | Complex128
  | Array | Chan | Func | Interface | Map | Ptr | Slice | String | Struct
  | UnsafePointer.

#[global] Instance Kind_eq_dec : EqDecision Kind.
Proof. solve_decision. Defined.

(** A field of a struct type: [reflect.StructField], with [Exported] for
    [PkgPath == ""] ([IsExported]). *)
Record StructField (T : Type) : Type := mkStructField {
  Name : string;
  Exported : bool;
  Typ : T
}.
Arguments mkStructField {T} _ _ _.
Arguments Name {T} _.
Arguments Exported {T} _.
Arguments Typ {T} _.

(** Go types.  [TBasic name k] is a type of kind [k] that has no structure
    the merge looks at (predeclared types, named types over them, slices,
    maps, channels, and pointer types that are only copied); [TPtr t] is
    the pointer type [*t]; [TStruct name fields] is a struct type, [name]
    being empty for an unnamed one. *)
Inductive type : Type :=
  | TBasic (name : string) (k : Kind)
  | TPtr (elem : type)
  | TStruct (name : string) (fields : list (StructField type)).

(** The data of a Go value. *)
Inductive data : Type :=
  | DBool (b : bool)
  | DInt (n : Z)                               (* int, int8 .. int64 *)
  | DUint (n : Z)                              (* uint, uint8 .. uint64, uintptr *)
  | DFloat (f : spec_float)                    (* float32, float64 *)
  | DComplex (re im : spec_float)
  | DString (s : string)
  | DArray (elems : list data)
  | DSlice (elems : option (list data))        (* None: the nil slice *)
  | DMap (entries : option (list (data * data)))  (* None: the nil map *)
  | DPtr (target : option data)                (* None: the nil pointer *)
  | DIface (dyn : option (type * data))        (* None: the nil interface *)
  | DOpaque (id : option nat)                  (* chan, func, unsafe.Pointer *)
  | DStruct (fields : list data).

(** The flags of a [Value] that the merge depends on: [flagRO] (obtained
    through an unexported field) and [flagAddr] (addressable). *)
Record flag : Set := mkFlag { flagRO : bool; flagAddr : bool }.

(** [reflect.Value]; [ZeroValue] is [Value{}], the invalid Value. *)
Inductive Value : Type :=
  | ZeroValue
  | Val (typ : type) (dat : data) (fl : flag).

Definition kindOfType (t : type) : Kind :=
  match t with
  | TBasic _ k => k
  | TPtr _ => Ptr
  | TStruct _ _ => Struct
  end.

(** [v.Kind()] *)
Definition KindOf (v : Value) : Kind :=
  match v with
  | ZeroValue => Invalid
  | Val t _ _ => kindOfType t
  end.

(** [v.Type()]; it panics on the zero Value ([None]). *)
Definition TypeOf (v : Value) : option type :=
  match v with
  | ZeroValue => None
  | Val t _ _ => Some t
  end.

(** Identity of types, [t1 == t2] on [reflect.Type]. *)
Fixpoint type_eqb (a b : type) {struct a} : bool :=
  match a, b with
  | TBasic n k, TBasic n' k' => bool_decide (n = n') && bool_decide (k = k')
  | TPtr e, TPtr e' => type_eqb e e'
  | TStruct n fs, TStruct n' fs' =>
      bool_decide (n = n') &&
      (fix fields_eqb (l l' : list (StructField type)) {struct l} : bool :=
         match l, l' with
         | [], [] => true
         | mkStructField fn fe ft :: r, mkStructField fn' fe' ft' :: r' =>
             bool_decide (fn = fn') && bool_decide (fe = fe') &&
             type_eqb ft ft' && fields_eqb r r'
         | _, _ => false
         end) fs fs'
  | _, _ => false
  end.

Definition CanAddr (v : Value) : bool :=
  match v with
  | ZeroValue => false
  | Val _ _ fl => flagAddr fl
  end.

Definition CanSet (v : Value) : bool :=
  match v with
  | ZeroValue => false
  | Val _ _ fl => flagAddr fl && negb (flagRO fl)
  end.

Definition CanInterface (v : Value) : bool :=
  match v with
  | ZeroValue => false   (* Go panics here; the merge never asks *)
  | Val _ _ fl => negb (flagRO fl)
  end.

(** [v.Elem()] for a pointer: the variable pointed to, addressable, or the
    zero Value for the nil pointer.  (The merge calls it on kind Ptr only.) *)
Definition Elem (v : Value) : Value :=
  match v with
  | Val (TPtr t) (DPtr (Some d)) fl => Val t d (mkFlag (flagRO fl) true)
  | _ => ZeroValue
  end.

(** [v.IsNil()] for the kinds that have a nil. *)
Definition IsNil (v : Value) : option bool :=
  match v with
  | Val _ (DPtr p) _ => Some (bool_decide (p = None))
  | Val _ (DIface i) _ => Some (match i with None => true | Some _ => false end)
  | Val _ (DSlice s) _ => Some (match s with None => true | Some _ => false end)
  | Val _ (DMap m) _ => Some (match m with None => true | Some _ => false end)
  | Val _ (DOpaque o) _ => Some (match o with None => true | Some _ => false end)
  | _ => None
  end.

(** [v.Len()] *)
Definition Len (v : Value) : option nat :=
  match v with
  | Val _ (DString s) _ => Some (String.length s)
  | Val _ (DArray l) _ => Some (length l)
  | Val _ (DSlice s) _ => Some (match s with None => 0 | Some l => length l end)
  | Val _ (DMap m) _ => Some (match m with None => 0 | Some l => length l end)
  | _ => None
  end.

(** [v.Bool()], [v.Int()], [v.Uint()], [v.Float()] *)
Definition GetBool (v : Value) : option bool :=
  match v with Val _ (DBool b) _ => Some b | _ => None end.
Definition GetInt (v : Value) : option Z :=
  match v with Val _ (DInt n) _ => Some n | _ => None end.
Definition GetUint (v : Value) : option Z :=
  match v with Val _ (DUint n) _ => Some n | _ => None end.
Definition GetFloat (v : Value) : option spec_float :=
  match v with Val _ (DFloat f) _ => Some f | _ => None end.

(** [v.NumField()] *)
Definition NumField (v : Value) : nat :=
  match v with
  | Val (TStruct _ fs) _ _ => length fs
  | _ => 0
  end.

(** [v.Type().Field(i)] *)
Definition TypeField (v : Value) (i : nat) : option (StructField type) :=
  match v with
  | Val (TStruct _ fs) _ _ => fs !! i
  | _ => None
  end.

(** [v.Field(i)]: the i-th field of a struct Value.  It is addressable when
    the struct is, and read-only when the struct is or when the field is
    not exported. *)
Definition Field (v : Value) (i : nat) : option Value :=
  match v with
  | Val (TStruct _ fs) (DStruct ds) fl =>
      match fs !! i, ds !! i with
      | Some f, Some d =>
          Some (Val (Typ f) d (mkFlag (flagRO fl || negb (Exported f)) (flagAddr fl)))
      | _, _ => None
      end
  | _ => None
  end.

(** [v.Addr()]: a pointer to the addressable [v]; the pointer itself is
    not addressable and keeps [flagRO]. *)
Definition Addr (v : Value) : option Value :=
  match v with
  | Val t d fl =>
      if flagAddr fl then Some (Val (TPtr t) (DPtr (Some d)) (mkFlag (flagRO fl) false))
      else None
  | ZeroValue => None
  end.

(** [v.Set(x)]: [v] must be settable, [x] must not come from an unexported
    field, and the types must agree. *)
Definition SetValue (v x : Value) : option Value :=
  match v, x with
  | Val t _ fl, Val t' d' fl' =>
      if CanSet v && negb (flagRO fl') && type_eqb t t' then Some (Val t d' fl)
      else None
  | _, _ => None
  end.

(** [reflect.ValueOf(i)] for an [interface{}] argument: [None] is the nil
    interface, [Some (t, d)] holds a value [d] of dynamic type [t]. *)
Definition ValueOf (i : option (type * data)) : Value :=
  match i with
  | None => ZeroValue
  | Some (t, d) => Val t d (mkFlag false false)
  end.

End reflect.

Abbreviation Value := reflect.Value.
Abbreviation type := reflect.type.
Abbreviation data := reflect.data.

(** ** Package structmerge *)

(** The errors a merge can return: the three package variables, and any
    other error that a [Merge] method of the caller returns. *)
Inductive error : Set :=
  | ErrInvalidDestination
  | ErrInvalidSource
  | ErrTypeMismatch
  | UserError (message : string).

(** The [Error] method of [MergeError]: the message. *)
Definition Error (e : error) : string :=
  match e with
  | ErrInvalidDestination => "destination must be a pointer to a struct"
  | ErrInvalidSource => "source must be a struct"
  | ErrTypeMismatch => "source and destination types do not match"
  | UserError m => m
  end.

(** [type MergeOption int] and its three constants. *)
Definition MergeOption := Z.
Definition IncludeAll : MergeOption := 0%Z.
Definition ExcludeEmpty : MergeOption := 1%Z.
Definition OverwriteEmpty : MergeOption := 2%Z.

Record Config : Set := mkConfig {
  Option : MergeOption;
  Include : list string;
  Exclude : list string
}.

(** What a call returns: the destination after the call with the error
    ([None] for nil), or a panic, or (model only) not enough fuel. *)
Inductive outcome : Type :=
  | Ret (dst : Value) (err : option error)
  | Panic
  | OutOfFuel.

(** A [Merge(src reflect.Value) error] method with a pointer receiver: from
    the content of the receiver's variable and [src] to the new content and
    the error returned; [None] when the method panics. *)
Definition Merger : Type := data -> Value -> option (data * option error).

Notation "'try' x ← e ; k" :=
  (match e with Some x => k | None => Panic end)
  (at level 10, x pattern, e at level 100, k at level 200, only parsing).

(** [m[k]] on a [map[string]bool]: false when the key is absent. *)
Definition index (m : gmap string bool) (k : string) : bool :=
  default false (m !! k).

(** [m := make(map[string]bool); for _, f := range l { m[f] = true }] *)
Definition makeSet (l : list string) : gmap string bool :=
  foldl (fun m f => <[f := true]> m) ∅ l.

Definition shouldInclude (fullFieldName : string) (includeMap : gmap string bool) : bool :=
  if index includeMap fullFieldName then true
  else if negb (Contains fullFieldName ".") then
    existsb (fun key => HasPrefix key fullFieldName) (map_to_list includeMap).*1
  else false.

Definition isZero (v : Value) : option bool :=
  match reflect.KindOf v with
  | reflect.Array | reflect.Map | reflect.Slice | reflect.String =>
      n ← reflect.Len v; Some (bool_decide (n = 0))
  | reflect.Bool =>
      b ← reflect.GetBool v; Some (negb b)
  | reflect.Int | reflect.Int8 | reflect.Int16 | reflect.Int32 | reflect.Int64 =>
      n ← reflect.GetInt v; Some (bool_decide (n = 0%Z))
  | reflect.Uint | reflect.Uint8 | reflect.Uint16 | reflect.Uint32 | reflect.Uint64 =>
      n ← reflect.GetUint v; Some (bool_decide (n = 0%Z))
  | reflect.Float32 | reflect.Float64 =>
      f ← reflect.GetFloat v; Some (SFeqb f (S754_zero false))
  | reflect.Interface | reflect.Ptr =>
      reflect.IsNil v
  | _ => Some false
  end.

(** The type [time.Time]: three unexported fields. *)
Definition time_Time : type :=
  reflect.TStruct "time.Time"
    [ reflect.mkStructField "wall" false (reflect.TBasic "uint64" reflect.Uint64);
      reflect.mkStructField "ext" false (reflect.TBasic "int64" reflect.Int64);
      reflect.mkStructField "loc" false (reflect.TBasic "*time.Location" reflect.Ptr) ].

(** [_, ok := v.Interface().(time.Time)] *)
Definition isTime (v : Value) : bool :=
  match v with
  | reflect.Val t _ _ => reflect.type_eqb t time_Time
  | reflect.ZeroValue => false
  end.

(** The pointer [p] after its variable has received the content of [e]. *)
Definition store (p e : Value) : Value :=
  match p, e with
  | reflect.Val t (reflect.DPtr _) fl, reflect.Val _ d _ =>
      reflect.Val t (reflect.DPtr (Some d)) fl
  | _, _ => p
  end.

(** The struct [s] after its i-th field has received the content of [f]. *)
Definition storeField (s : Value) (i : nat) (f : Value) : Value :=
  match s, f with
  | reflect.Val t (reflect.DStruct ds) fl, reflect.Val _ d _ =>
      reflect.Val t (reflect.DStruct (<[i := d]> ds)) fl
  | _, _ => s
  end.

(** [for i := 0; i < n; i++ { body }], where the body returns an error to
    leave the function and nil to go on. *)
Fixpoint fieldLoop (body : nat -> Value -> outcome) (n i : nat) (dst : Value) : outcome :=
  match n with
  | O => Ret dst None
  | S n' =>
      match body i dst with
      | Ret dst' None => fieldLoop body n' (S i) dst'
      | other => other
      end
  end.

Section Engine.

(** The method sets of the program: [methods t] is the [Merge] method of
    the (pointer) type [t] when [t] implements [Merger]. *)
Variable methods : type -> option Merger.

(** [reflect.New(t.Elem())] for a pointer type [t]: a pointer to a new zero
    value.  It is called on one path only, for a nil [dst], which the test
    on [dst.Elem().Kind()] before it never lets through; the merge is stated
    for any such function. *)
Variable NewElem : type -> Value.

(** [v.CanAddr() && v.Addr().Type().Implements(ifacetype)] *)
Definition addrImplements (v : Value) : bool :=
  reflect.CanAddr v &&
  match reflect.Addr v with
  | Some (reflect.Val t _ _) => bool_decide (is_Some (methods t))
  | _ => false
  end.

(** [merger := v.Addr().Interface().(Merger); merger.Merge(src)]:
    [Interface] panics on a Value obtained through an unexported field.
    The result is [v] with the content the method leaves, and its error. *)
Definition callMerger (v src : Value) : option (Value * option error) :=
  a ← reflect.Addr v;
  if reflect.CanInterface a then
    match a, v with
    | reflect.Val pt _ _, reflect.Val t d fl =>
        merger ← methods pt;
        r ← merger d src;
        Some (reflect.Val t r.1 fl, r.2)
    | _, _ => None
    end
  else None.

(** The body of the loop of [mergeValues] for field [i]; [rec] is the
    recursive call. *)
Definition mergeField (rec : Value -> Value -> string -> outcome)
    (cfg : Config) (prefix : string) (includeMap excludeMap : gmap string bool)
    (src : Value) (i : nat) (dst : Value) : outcome :=
  try field ← reflect.TypeField dst i;
  let fieldName := reflect.Name field in
  let fullFieldName := prefix +:+ fieldName in
  if bool_decide (0 < length (Include cfg)) && negb (shouldInclude fullFieldName includeMap)
  then Ret dst None
  else if index excludeMap fullFieldName then Ret dst None
  else
    try dstField ← reflect.Field dst i;
    try srcField ← reflect.Field src i;
    if addrImplements dstField then
      try r ← callMerger dstField srcField;
      Ret (storeField dst i r.1) None
    else if negb (reflect.CanSet dstField) then Ret dst None
    else if bool_decide (reflect.KindOf dstField = reflect.Struct) then
      try p ← reflect.Addr dstField;
      match rec p srcField (fullFieldName +:+ ".") with
      | Ret p' err => Ret (storeField dst i (reflect.Elem p')) err
      | other => other
      end
    else
      try shouldSet ←
        (if bool_decide (Option cfg = ExcludeEmpty) then negb <$> isZero srcField
         else if bool_decide (Option cfg = OverwriteEmpty) then isZero dstField
         else Some true);
      if shouldSet || bool_decide (Option cfg = IncludeAll) then
        try dstField' ← reflect.SetValue dstField srcField;
        Ret (storeField dst i dstField') None
      else Ret dst None.

Fixpoint mergeValues (fuel : nat) (dst src : Value) (cfg : Config) (prefix : string)
    : outcome :=
  match fuel with
  | O => OutOfFuel
  | S fuel' =>
    if negb (bool_decide (reflect.KindOf dst = reflect.Ptr))
       || negb (bool_decide (reflect.KindOf (reflect.Elem dst) = reflect.Struct))
    then Ret dst (Some ErrInvalidDestination)
    else
      try isnil ← reflect.IsNil dst;
      try ptr ←
        (if isnil then
           t ← reflect.TypeOf dst; reflect.SetValue dst (NewElem t)
         else Some dst);
      let dst := reflect.Elem ptr in
      if negb (bool_decide (reflect.KindOf src = reflect.Struct))
      then Ret ptr (Some ErrInvalidSource)
      else
        try dt ← reflect.TypeOf dst;
        try st ← reflect.TypeOf src;
        if negb (reflect.type_eqb dt st) then Ret ptr (Some ErrTypeMismatch)
        else if reflect.CanInterface dst && isTime dst then
          (* Check if it's time.Time and copy it directly *)
          try dst' ← reflect.SetValue dst src;
          Ret (store ptr dst') None
        else if addrImplements dst then
          (* Check if a struct implements the Merger interface *)
          try r ← callMerger dst src;
          Ret (store ptr r.1) r.2
        else
          let includeMap := makeSet (Include cfg) in
          let excludeMap := makeSet (Exclude cfg) in
          match fieldLoop
                  (mergeField (fun d s p => mergeValues fuel' d s cfg p)
                              cfg prefix includeMap excludeMap src)
                  (reflect.NumField dst) 0 dst with
          | Ret dst' err => Ret (store ptr dst') err
          | other => other
          end
  end.

End Engine.

(** The nesting depth of a type: the fuel that a merge into it needs. *)
Fixpoint depth (t : type) : nat :=
  match t with
  | reflect.TBasic _ _ => 0
  | reflect.TPtr e => depth e
  | reflect.TStruct _ fs =>
      S ((fix fields_depth (l : list (reflect.StructField type)) : nat :=
            match l with
            | [] => 0
            | reflect.mkStructField _ _ ft :: r => Nat.max (depth ft) (fields_depth r)
            end) fs)
  end.

Definition fuelFor (dst : option (type * data)) : nat :=
  match dst with
  | Some (t, _) => S (depth t)
  | None => 1
  end.

(** [Merge(dst, src interface{}, cfg ...Config) error] *)
Definition Merge (methods : type -> option Merger) (NewElem : type -> Value)
    (dst src : option (type * data)) (cfg : list Config) : outcome :=
  let defaultConfig :=
    match cfg with
    | c :: _ => c
    | [] => mkConfig IncludeAll [] []
    end in
  mergeValues methods NewElem (fuelFor dst)
    (reflect.ValueOf dst) (reflect.ValueOf src) defaultConfig "".

(** ** Induction on types, through the field lists *)

Section TypeInduction.

Variable P : type -> Prop.
Hypothesis Hbasic : forall n k, P (reflect.TBasic n k).
Hypothesis Hptr : forall e, P e -> P (reflect.TPtr e).
Hypothesis Hstruct :
  forall n fs, Forall (fun f => P (reflect.Typ f)) fs -> P (reflect.TStruct n fs).

Fixpoint type_nested_ind (t : type) : P t :=
  match t with
  | reflect.TBasic n k => Hbasic n k
  | reflect.TPtr e => Hptr e (type_nested_ind e)
  | reflect.TStruct n fs =>
      Hstruct n fs
        ((fix fields (l : list (reflect.StructField type))
            : Forall (fun f => P (reflect.Typ f)) l :=
            match l with
            | [] => List.Forall_nil _
            | f :: r =>
                @List.Forall_cons _ _ f r
                  (match f return P (reflect.Typ f) with
                   | reflect.mkStructField _ _ ft => type_nested_ind ft
                   end)
                  (fields r)
            end) fs)
  end.

End TypeInduction.

(** ** Observing the arguments and the result of a merge *)

(** The i-th field of a struct. *)
Definition fieldOf (d : data) (i : nat) : option data :=
  match d with
  | reflect.DStruct ds => ds !! i
  | _ => None
  end.

(** The i-th field of the struct a Value holds. *)
Definition fieldData (v : Value) (i : nat) : option data :=
  match v with
  | reflect.Val _ d _ => fieldOf d i
  | reflect.ZeroValue => None
  end.

(** The content of the variable a pointer refers to. *)
Definition pointee (p : Value) : option data :=
  match p with
  | reflect.Val _ (reflect.DPtr (Some d)) _ => Some d
  | _ => None
  end.

(** [interface{}] arguments: a struct, and a pointer to a struct variable. *)
Definition structArg (t : type) (d : data) : option (type * data) := Some (t, d).
Definition pointerArg (t : type) (d : data) : option (type * data) :=
  Some (reflect.TPtr t, reflect.DPtr (Some d)).

(** [Merge] with configuration [cfg] returns nil and leaves [v] in field [k]
    of the destination. *)
Definition mergeLeaves (methods : type -> option Merger) (NewElem : type -> Value)
    (T : type) (d s : data) (cfg : Config) (k : nat) (v : data) : Prop :=
  exists d',
    Merge methods NewElem (pointerArg T d) (structArg T s) [cfg]
    = Ret (reflect.ValueOf (pointerArg T d')) None /\
    fieldOf d' k = Some v.

(** [same v v']: the same type and flags (the content may differ). *)
Definition same (v v' : Value) : Prop :=
  match v, v' with
  | reflect.Val t _ fl, reflect.Val t' _ fl' => t = t' /\ fl = fl'
  | reflect.ZeroValue, reflect.ZeroValue => True
  | _, _ => False
  end.

(** The value [mergeValues] works on after [dst = dst.Elem()]. *)
Definition elemOf (t : type) (d : data) (flp : reflect.flag) : Value :=
  reflect.Val t d (reflect.mkFlag (reflect.flagRO flp) true).

(** The configuration that [Merge] passes on. *)
Definition configOf (cfg : list Config) : Config :=
  match cfg with
  | c :: _ => c
  | [] => mkConfig IncludeAll [] []
  end.

(** ** The notions of the specification *)

(** The destination argument is a pointer whose referent is a struct. *)
Definition pointsToStruct (dst : option (type * data)) : Prop :=
  exists T d, dst = pointerArg T d /\ reflect.kindOfType T = reflect.Struct.

(** The source argument is a struct value. *)
Definition isStruct (src : option (type * data)) : Prop :=
  exists T s, src = structArg T s /\ reflect.kindOfType T = reflect.Struct.

(** The field passes the include and exclude filters of the loop. *)
Definition passesFilters (cfg : Config) (fullFieldName : string) : Prop :=
  (Include cfg = [] \/ shouldInclude fullFieldName (makeSet (Include cfg)) = true)
  /\ fullFieldName ∉ Exclude cfg.

(** The types of the tests of the repository ([structmerge_test.go]). *)
Module Fixtures.

Definition tString : type := reflect.TBasic "string" reflect.String.
Definition tInt : type := reflect.TBasic "int" reflect.Int.
Definition tBool : type := reflect.TBasic "bool" reflect.Bool.
Definition tUint : type := reflect.TBasic "uint" reflect.Uint.

Definition Address : type :=
  reflect.TStruct "Address"
    [ reflect.mkStructField "Street" true tString;
      reflect.mkStructField "City" true tString;
      reflect.mkStructField "Country" true tString ].

Definition TestStruct : type :=
  reflect.TStruct "TestStruct"
    [ reflect.mkStructField "Name" true tString;
      reflect.mkStructField "Age" true tInt;
      reflect.mkStructField "Address" true Address;
      reflect.mkStructField "Active" true tBool;
      reflect.mkStructField "Count" true tUint;
      reflect.mkStructField "hidden" false tString ].

Definition address (street city country : string) : data :=
  reflect.DStruct [reflect.DString street; reflect.DString city; reflect.DString country].

Definition testStruct (name : string) (age : Z) (addr : data) (active : bool)
    (count : Z) (hidden : string) : data :=
  reflect.DStruct
    [ reflect.DString name; reflect.DInt age; addr; reflect.DBool active;
      reflect.DUint count; reflect.DString hidden ].

(** A program in which no type has a [Merge] method. *)
Definition noMethods : type -> option Merger := fun _ => None.

(** Some [reflect.New]; no call reaches it. *)
Definition anyNew : type -> Value := fun _ => reflect.ZeroValue.

End Fixtures.

(** The zero [time.Time] and another one. *)
Definition zeroTime : data :=
  reflect.DStruct [reflect.DUint 0; reflect.DInt 0; reflect.DPtr None].
Definition someTime : data :=
  reflect.DStruct [reflect.DUint 13; reflect.DInt 63000000000; reflect.DPtr None].

(** The verdict of [isZero] on data [d] of type [t]; [isZero] does not
    look at the flags of the Value. *)
Definition isEmpty (t : type) (d : data) : option bool :=
  isZero (reflect.Val t d (reflect.mkFlag false false)).

(** [shouldSet] as the loop computes it for a leaf with destination [d] and
    source [s]. *)
Definition shouldSet (cfg : Config) (t : type) (d s : data) : option bool :=
  if bool_decide (Option cfg = ExcludeEmpty) then negb <$> isEmpty t s
  else if bool_decide (Option cfg = OverwriteEmpty) then isEmpty t d
  else Some true.

(** The length of a string, array, slice or map is zero. *)
Definition lengthIsZero (d : data) : bool :=
  match d with
  | reflect.DString s => bool_decide (String.length s = 0)
  | reflect.DArray l => bool_decide (length l = 0)
  | reflect.DSlice s => bool_decide (length (default [] s) = 0)
  | reflect.DMap m => bool_decide (length (default [] m) = 0)
  | _ => false
  end.

(** An integer or a float is zero (either zero of a float). *)
Definition numberIsZero (d : data) : bool :=
  match d with
  | reflect.DInt n | reflect.DUint n => bool_decide (n = 0%Z)
  | reflect.DFloat (S754_zero _) => true
  | _ => false
  end.

(** A reference is nil. *)
Definition referenceIsNil (d : data) : bool :=
  match d with
  | reflect.DPtr None | reflect.DIface None | reflect.DSlice None
  | reflect.DMap None | reflect.DOpaque None => true
  | _ => false
  end.

(** Empty, in the words of the specification: length zero for string,
    slice, map and array; false for bool; zero for signed and unsigned
    integers and for floats; nil for pointer and interface; never for any
    other kind. *)
Definition emptyPerSpec (k : reflect.Kind) (d : data) : bool :=
  match k with
  | reflect.String | reflect.Slice | reflect.Map | reflect.Array => lengthIsZero d
  | reflect.Bool => match d with reflect.DBool b => negb b | _ => false end
  | reflect.Int | reflect.Int8 | reflect.Int16 | reflect.Int32 | reflect.Int64
  | reflect.Uint | reflect.Uint8 | reflect.Uint16 | reflect.Uint32 | reflect.Uint64
  | reflect.Uintptr => numberIsZero d
  | reflect.Float32 | reflect.Float64 => numberIsZero d
  | reflect.Ptr | reflect.Interface => referenceIsNil d
  | _ => false
  end.

(** A struct with one field of type [uintptr]. *)
Definition Resource : type :=
  reflect.TStruct "Resource"
    [reflect.mkStructField "Handle" true (reflect.TBasic "uintptr" reflect.Uintptr)].


(** A type with a [Merge] method, as in the tests: [type Date time.Time]
    with [func (d *Date) Merge(src reflect.Value) error], which copies a
    [Date] and refuses anything else. *)
Module DateFixture.

Definition Date : type :=
  reflect.TStruct "Date"
    [ reflect.mkStructField "wall" false (reflect.TBasic "uint64" reflect.Uint64);
      reflect.mkStructField "ext" false (reflect.TBasic "int64" reflect.Int64);
      reflect.mkStructField "loc" false (reflect.TBasic "*time.Location" reflect.Ptr) ].

(** [srcDate, ok := src.Interface().(Date); if !ok { return ErrInvalidSource };
    *d = srcDate; return nil] *)
Definition Date_Merge : Merger :=
  fun d src =>
    match src with
    | reflect.ZeroValue => None
    | reflect.Val t s fl =>
        if reflect.flagRO fl then None
        else if reflect.type_eqb t Date then Some (s, None)
        else Some (d, Some ErrInvalidSource)
    end.

Definition methods : type -> option Merger :=
  fun t => if reflect.type_eqb t (reflect.TPtr Date) then Some Date_Merge else None.

(** A [Merge] method that changes nothing and returns an error. *)
Definition refuse : Merger := fun d _ => Some (d, Some (UserError "refused")).

Definition refusing : type -> option Merger :=
  fun t => if reflect.type_eqb t (reflect.TPtr Date) then Some refuse else None.

(** [type Plan struct { Date Date; Data json.RawMessage }] *)
Definition Plan : type :=
  reflect.TStruct "Plan"
    [ reflect.mkStructField "Date" true Date;
      reflect.mkStructField "Data" true (reflect.TBasic "json.RawMessage" reflect.Slice) ].

(** A struct that keeps a [Date] in an unexported field. *)
Definition Ledger : type :=
  reflect.TStruct "Ledger"
    [ reflect.mkStructField "stamp" false Date;
      reflect.mkStructField "Owner" true (reflect.TBasic "string" reflect.String) ].

Definition bytes (s : list Z) : data := reflect.DSlice (Some (reflect.DUint <$> s)).

End DateFixture.

(** Data of a basic type has the form of its kind. *)
Definition basicHasKind (k : reflect.Kind) (d : data) : bool :=
  match k, d with
  | reflect.Bool, reflect.DBool _ => true
  | (reflect.Int | reflect.Int8 | reflect.Int16 | reflect.Int32 | reflect.Int64),
    reflect.DInt _ => true
  | (reflect.Uint | reflect.Uint8 | reflect.Uint16 | reflect.Uint32 | reflect.Uint64
     | reflect.Uintptr), reflect.DUint _ => true
  | (reflect.Float32 | reflect.Float64), reflect.DFloat _ => true
  | (reflect.Complex64 | reflect.Complex128), reflect.DComplex _ _ => true
  | reflect.Array, reflect.DArray _ => true
  | reflect.Slice, reflect.DSlice _ => true
  | reflect.Map, reflect.DMap _ => true
  | reflect.String, reflect.DString _ => true
  | reflect.Ptr, reflect.DPtr _ => true
  | reflect.Interface, reflect.DIface _ => true
  | (reflect.Chan | reflect.Func | reflect.UnsafePointer), reflect.DOpaque _ => true
  | _, _ => false
  end.

(** [hasType t d]: [d] is data of type [t]. *)
Fixpoint hasType (t : type) (d : data) {struct t} : bool :=
  match t with
  | reflect.TBasic _ k => basicHasKind k d
  | reflect.TPtr e =>
      match d with
      | reflect.DPtr None => true
      | reflect.DPtr (Some x) => hasType e x
      | _ => false
      end
  | reflect.TStruct _ fs =>
      match d with
      | reflect.DStruct ds =>
          (fix fields (l : list (reflect.StructField type)) (ds : list data) : bool :=
             match l, ds with
             | [], [] => true
             | reflect.mkStructField _ _ ft :: r, x :: dr => hasType ft x && fields r dr
             | _, _ => false
             end) fs ds
      | _ => false
      end
  end.

(** No type of the record, at any depth, has a [Merge] method. *)
Fixpoint mergerFree (methods : type -> option Merger) (t : type) {struct t} : bool :=
  bool_decide (methods (reflect.TPtr t) = None) &&
  match t with
  | reflect.TStruct _ fs =>
      (fix fields (l : list (reflect.StructField type)) : bool :=
         match l with
         | [] => true
         | reflect.mkStructField _ _ ft :: r => mergerFree methods ft && fields r
         end) fs
  | _ => true
  end.

(** The claim in its own words: the source, field for field through the
    nested structs, except that a field that is not exported keeps the
    destination's value. *)
Fixpoint sourceExceptPrivate (t : type) (d s : data) {struct t} : data :=
  match t, d, s with
  | reflect.TStruct _ fs, reflect.DStruct ds, reflect.DStruct ss =>
      reflect.DStruct
        ((fix fields (l : list (reflect.StructField type)) (ds ss : list data) : list data :=
            match l, ds, ss with
            | reflect.mkStructField _ e ft :: r, x :: dr, y :: sr =>
                (if e then
                   if bool_decide (reflect.kindOfType ft = reflect.Struct)
                   then sourceExceptPrivate ft x y else y
                 else x) :: fields r dr sr
            | _, _, _ => []
            end) fs ds ss)
  | _, _, _ => d
  end.

(** What the code does: the same, except that a [time.Time] is the source's
    as a whole, its unexported fields included. *)
Fixpoint overlay (t : type) (d s : data) {struct t} : data :=
  if reflect.type_eqb t time_Time then s
  else
    match t, d, s with
    | reflect.TStruct _ fs, reflect.DStruct ds, reflect.DStruct ss =>
        reflect.DStruct
          ((fix fields (l : list (reflect.StructField type)) (ds ss : list data) : list data :=
              match l, ds, ss with
              | reflect.mkStructField _ e ft :: r, x :: dr, y :: sr =>
                  (if e then
                     if bool_decide (reflect.kindOfType ft = reflect.Struct)
                     then overlay ft x y else y
                   else x) :: fields r dr sr
              | _, _, _ => []
              end) fs ds ss)
    | _, _, _ => d
    end.

(** The field lists, one field at a time. *)
Definition overlayField (f : reflect.StructField type) (x y : data) : data :=
  if reflect.Exported f then
    if bool_decide (reflect.kindOfType (reflect.Typ f) = reflect.Struct)
    then overlay (reflect.Typ f) x y else y
  else x.

(** [overlay], [hasType] and [mergerFree] along a list of fields. *)
Fixpoint overlayFields (fs : list (reflect.StructField type)) (ds ss : list data)
    : list data :=
  match fs, ds, ss with
  | f :: r, x :: dr, y :: sr => overlayField f x y :: overlayFields r dr sr
  | _, _, _ => []
  end.

Fixpoint hasTypeFields (fs : list (reflect.StructField type)) (ds : list data) : bool :=
  match fs, ds with
  | [], [] => true
  | f :: r, x :: dr => hasType (reflect.Typ f) x && hasTypeFields r dr
  | _, _ => false
  end.

Fixpoint mergerFreeFields (methods : type -> option Merger)
    (fs : list (reflect.StructField type)) : bool :=
  match fs with
  | [] => true
  | f :: r => mergerFree methods (reflect.Typ f) && mergerFreeFields methods r
  end.

(** The default configuration of [Merge]. *)
Definition defaultConfig : Config := mkConfig IncludeAll [] [].

(** No [time.Time] in the record, at any depth. *)
Fixpoint timeFree (t : type) {struct t} : bool :=
  negb (reflect.type_eqb t time_Time) &&
  match t with
  | reflect.TStruct _ fs =>
      (fix fields (l : list (reflect.StructField type)) : bool :=
         match l with
         | [] => true
         | reflect.mkStructField _ _ ft :: r => timeFree ft && fields r
         end) fs
  | _ => true
  end.

(** A named integer type whose [Merge] method keeps the larger value:
    [type Version int] with
    [func (v *Version) Merge(src reflect.Value) error]. *)
Module VersionFixture.

Definition Version : type := reflect.TBasic "Version" reflect.Int.

Definition Version_Merge : Merger :=
  fun d src =>
    match d, src with
    | reflect.DInt a, reflect.Val _ (reflect.DInt b) _ => Some (reflect.DInt (Z.max a b), None)
    | _, _ => None
    end.

Definition methods : type -> option Merger :=
  fun t => if reflect.type_eqb t (reflect.TPtr Version) then Some Version_Merge else None.

(** [type Release struct { Name string; Version Version }] *)
Definition Release : type :=
  reflect.TStruct "Release"
    [ reflect.mkStructField "Name" true (reflect.TBasic "string" reflect.String);
      reflect.mkStructField "Version" true Version ].

Definition release (name : string) (version : Z) : data :=
  reflect.DStruct [reflect.DString name; reflect.DInt version].

End VersionFixture.

(** The [Address] of the tests with a [Merge] method that copies the
    source, as the [Date] of the tests does:
    [func (a *Address) Merge(src reflect.Value) error] with
    [s, ok := src.Interface().(Address); if !ok { return ErrInvalidSource };
    *a = s; return nil]. *)
Module AddressFixture.

Definition Address_Merge : Merger :=
  fun d src =>
    match src with
    | reflect.ZeroValue => None
    | reflect.Val t s fl =>
        if reflect.flagRO fl then None
        else if reflect.type_eqb t Fixtures.Address then Some (s, None)
        else Some (d, Some ErrInvalidSource)
    end.

Definition methods : type -> option Merger :=
  fun t =>
    if reflect.type_eqb t (reflect.TPtr Fixtures.Address) then Some Address_Merge else None.

End AddressFixture.

(** Values of the tests, for the instances of the theorems below. *)
Module Sample.

Import Fixtures.

Definition alice : data :=
  testStruct "Alice" 30 (address "123 Old St" "Old City" "") false 10 "old".
Definition bob : data :=
  testStruct "Bob" 25 (address "456 New St" "New City" "New Country") true 5 "new".
Definition newcomer : data :=
  testStruct "Alice" 0 (address "" "Old City" "") false 0 "old".
Definition partial : data :=
  testStruct "" 0 (address "" "New City" "New Country") true 0 "new".

Definition fields : list (reflect.StructField type) :=
  match TestStruct with
  | reflect.TStruct _ fs => fs
  | _ => []
  end.

Definition contents (d : data) : list data :=
  match d with
  | reflect.DStruct ds => ds
  | _ => []
  end.

Definition plain : reflect.flag := reflect.mkFlag false false.

End Sample.

(** A struct with a [time.Time] field. *)
Definition Event : type :=
  reflect.TStruct "Event"
    [ reflect.mkStructField "Name" true (reflect.TBasic "string" reflect.String);
      reflect.mkStructField "When" true time_Time ].

(** ** The destination that a merge leaves, as a function of the data

    For records in which no type has a [Merge] method: what the loop of
    [mergeValues] leaves in each field, by recursion on the type. *)

(** The filters of the loop skip the field. *)
Definition skipped (cfg : Config) (fullFieldName : string) : bool :=
  bool_decide (0 < length (Include cfg))
    && negb (shouldInclude fullFieldName (makeSet (Include cfg)))
  || index (makeSet (Exclude cfg)) fullFieldName.

(** [shouldSet || cfg.Option == IncludeAll] for a leaf. *)
Definition setsLeaf (cfg : Config) (t : type) (d s : data) : bool :=
  match shouldSet cfg t d s with
  | Some set => set || bool_decide (Option cfg = IncludeAll)
  | None => false
  end.

Fixpoint merged (cfg : Config) (t : type) (prefix : string) (d s : data) {struct t} : data :=
  if reflect.type_eqb t time_Time then s
  else
    match t, d, s with
    | reflect.TStruct _ fs, reflect.DStruct ds, reflect.DStruct ss =>
        reflect.DStruct
          ((fix fields (l : list (reflect.StructField type)) (ds ss : list data) : list data :=
              match l, ds, ss with
              | reflect.mkStructField fn e ft :: r, x :: dr, y :: sr =>
                  (if skipped cfg (prefix +:+ fn) then x
                   else if negb e then x
                   else if bool_decide (reflect.kindOfType ft = reflect.Struct)
                   then merged cfg ft ((prefix +:+ fn) +:+ ".") x y
                   else if setsLeaf cfg ft x y then y else x) :: fields r dr sr
              | _, _, _ => []
              end) fs ds ss)
    | _, _, _ => d
    end.

(** [merged] for one field, and along a list of fields. *)
Definition mergedField (cfg : Config) (prefix : string) (f : reflect.StructField type)
    (x y : data) : data :=
  if skipped cfg (prefix +:+ reflect.Name f) then x
  else if negb (reflect.Exported f) then x
  else if bool_decide (reflect.kindOfType (reflect.Typ f) = reflect.Struct)
  then merged cfg (reflect.Typ f) ((prefix +:+ reflect.Name f) +:+ ".") x y
  else if setsLeaf cfg (reflect.Typ f) x y then y else x.

Fixpoint mergedFields (cfg : Config) (prefix : string)
    (fs : list (reflect.StructField type)) (ds ss : list data) : list data :=
  match fs, ds, ss with
  | f :: r, x :: dr, y :: sr => mergedField cfg prefix f x y :: mergedFields cfg prefix r dr sr
  | _, _, _ => []
  end.

(** ** Programs whose [Merge] methods can be called

    Every field whose pointer type has a [Merge] method is exported, in
    the record and in the exported struct fields that the merge enters. *)
Fixpoint mergersExported (methods : type -> option Merger) (t : type) {struct t} : bool :=
  match t with
  | reflect.TStruct _ fs =>
      (fix fields (l : list (reflect.StructField type)) : bool :=
         match l with
         | [] => true
         | reflect.mkStructField _ e ft :: r =>
             (match methods (reflect.TPtr ft) with
              | Some _ => e
              | None =>
                  negb e || negb (bool_decide (reflect.kindOfType ft = reflect.Struct))
                  || mergersExported methods ft
              end) && fields r
         end) fs
  | _ => true
  end.

(** No [Merge] method of the program panics. *)
Definition methodsReturn (methods : type -> option Merger) : Prop :=
  forall t merger d src, methods t = Some merger -> is_Some (merger d src).

(** * Properties *)

(** ** Types: induction through the field lists, and type identity *)

Lemma type_eqb_eq (a b : type) : reflect.type_eqb a b = true <-> a = b.
Proof.
  revert b. induction a as [n k | e IH | n fs IH] using type_nested_ind;
    intros [n' k' | e' | n' fs']; simpl; try (split; [discriminate | congruence]).
  - rewrite andb_true_iff, !bool_decide_eq_true. split; [intros [-> ->] | intros [= -> ->]]; auto.
  - rewrite IH. split; congruence.
  - rewrite andb_true_iff, bool_decide_eq_true.
    assert (Hfs : forall l',
      (fix fields_eqb (l l' : list (reflect.StructField type)) {struct l} : bool :=
         match l, l' with
         | [], [] => true
         | reflect.mkStructField fn fe ft :: r, reflect.mkStructField fn' fe' ft' :: r' =>
             bool_decide (fn = fn') && bool_decide (fe = fe') &&
             reflect.type_eqb ft ft' && fields_eqb r r'
         | _, _ => false
         end) fs l' = true <-> fs = l').
    { induction IH as [| [fn fe ft] r Hf _ IHr]; intros [| [fn' fe' ft'] r'];
        try (split; [discriminate | congruence]); [tauto |].
      rewrite !andb_true_iff, !bool_decide_eq_true, IHr. simpl in Hf. rewrite Hf.
      split; [intros [[[-> ->] ->] ->] | intros [= -> -> -> ->]]; auto. }
    rewrite Hfs. split; [intros [-> ->] | intros [= -> ->]]; auto.
Qed.

Lemma type_eqb_refl (t : type) : reflect.type_eqb t t = true.
Proof. by apply type_eqb_eq. Qed.

Lemma type_eqb_neq (a b : type) : a <> b -> reflect.type_eqb a b = false.
Proof.
  intros Hne. destruct (reflect.type_eqb a b) eqn:E; [| done].
  by apply type_eqb_eq in E.
Qed.

(** ** The include and exclude sets *)

Lemma makeSet_lookup_from (l : list string) (m : gmap string bool) (k : string) :
  foldl (fun m f => <[f := true]> m) m l !! k
  = if bool_decide (k ∈ l) then Some true else m !! k.
Proof.
  revert m. induction l as [| a l IH]; intros m; cbn [foldl].
  - by rewrite bool_decide_eq_false_2 by apply not_elem_of_nil.
  - rewrite IH. destruct (decide (k = a)) as [-> | Hne].
    + rewrite lookup_insert_eq.
      rewrite (bool_decide_eq_true_2 (a ∈ a :: l)) by apply list_elem_of_here.
      by destruct (bool_decide (a ∈ l)).
    + rewrite lookup_insert_ne by done.
      apply (f_equal (fun b : bool => if b then Some true else m !! k)).
      apply bool_decide_ext. rewrite elem_of_cons.
      split; [by right | intros [? | ?]; done].
Qed.

Lemma index_makeSet (l : list string) (k : string) :
  index (makeSet l) k = bool_decide (k ∈ l).
Proof.
  unfold index, makeSet. rewrite makeSet_lookup_from, lookup_empty.
  by case_bool_decide.
Qed.

Lemma keys_makeSet (l : list string) (k : string) :
  k ∈ (map_to_list (makeSet l)).*1 <-> k ∈ l.
Proof.
  rewrite list_elem_of_fmap. split.
  - intros [[k' b] [-> Hin]]. apply elem_of_map_to_list in Hin. simpl.
    unfold makeSet in Hin. rewrite makeSet_lookup_from, lookup_empty in Hin.
    by case_bool_decide.
  - intros Hin. exists (k, true). split; [done |].
    apply elem_of_map_to_list. unfold makeSet.
    by rewrite makeSet_lookup_from, bool_decide_eq_true_2.
Qed.

(** ** Observing a destination *)

Lemma same_refl v : same v v.
Proof. by destruct v. Qed.

Lemma same_trans u v w : same u v -> same v w -> same u w.
Proof.
  destruct u, v, w; simpl; try tauto. intros [-> ->] [-> ->]. done.
Qed.

Lemma storeField_same s i f : same s (storeField s i f).
Proof. destruct s as [| t [] fl], f; simpl; done. Qed.

Lemma storeField_other s i f j : j <> i -> fieldData (storeField s i f) j = fieldData s j.
Proof.
  intros Hne. destruct s as [| t [] fl], f; simpl; try done.
  by apply list_lookup_insert_ne.
Qed.

Lemma storeField_at t ds fl i t' d fl' x :
  ds !! i = Some x ->
  fieldData (storeField (reflect.Val t (reflect.DStruct ds) fl) i (reflect.Val t' d fl')) i
  = Some d.
Proof.
  intros Hx. simpl. apply list_lookup_insert_eq. by eapply lookup_lt_Some.
Qed.

(** ** The loop over the fields *)

Section Walk.

Variable methods : type -> option Merger.
Variable rec : Value -> Value -> string -> outcome.
Variable cfg : Config.
Variable prefix : string.
Variables includeMap excludeMap : gmap string bool.
Variable src : Value.

Let body := mergeField methods rec cfg prefix includeMap excludeMap src.

(** One iteration leaves the type, the flags and every other field as they
    were. *)
Lemma mergeField_frame i v v' e :
  body i v = Ret v' e ->
  same v v' /\ forall j, j <> i -> fieldData v' j = fieldData v j.
Proof.
  unfold body, mergeField. intros H.
  repeat (case_match; try discriminate); simplify_eq;
    first [ split; [apply same_refl | done]
          | split; [apply storeField_same | intros; by apply storeField_other] ].
Qed.

(** Fields outside the range of the loop are not touched. *)
Lemma fieldLoop_outside n : forall i v r e,
  fieldLoop body n i v = Ret r e ->
  same v r /\ forall k, (k < i \/ i + n <= k)%nat -> fieldData r k = fieldData v k.
Proof.
  induction n as [| n IH]; intros i v r e H; simpl in H.
  - simplify_eq. split; [apply same_refl | done].
  - destruct (body i v) as [v1 [e1 |] | |] eqn:Hb; simplify_eq.
    + apply mergeField_frame in Hb as [Hs Hf]. split; [done |].
      intros k Hk. apply Hf. lia.
    + apply mergeField_frame in Hb as [Hs Hf].
      apply IH in H as [Hs' Hf']. split; [by eapply same_trans |].
      intros k Hk. rewrite Hf' by lia. apply Hf. lia.
Qed.

(** When the loop completes, field [k] went through exactly one iteration,
    which saw the field as it was at the start. *)
Lemma fieldLoop_at n : forall i v r k,
  fieldLoop body n i v = Ret r None ->
  (i <= k < i + n)%nat ->
  exists w w',
    same v w /\ fieldData w k = fieldData v k /\
    body k w = Ret w' None /\ fieldData r k = fieldData w' k /\ same v r.
Proof.
  induction n as [| n IH]; intros i v r k H Hk; [lia |].
  simpl in H. destruct (body i v) as [v1 [e1 |] | |] eqn:Hb; simplify_eq.
  destruct (decide (k = i)) as [-> | Hne].
  - exists v, v1. pose proof Hb as [Hs Hf]%mergeField_frame.
    apply fieldLoop_outside in H as [Hs' Hf'].
    repeat split; try done; [apply same_refl | apply Hf'; lia | by eapply same_trans].
  - pose proof Hb as [Hs Hf]%mergeField_frame.
    destruct (IH (S i) v1 r k H) as (w & w' & Hw1 & Hw2 & Hw3 & Hw4 & Hw5); [lia |].
    exists w, w'. repeat split; try done.
    + by eapply same_trans.
    + rewrite Hw2. by apply Hf.
    + by eapply same_trans.
Qed.

End Walk.

(** ** Unfolding [mergeValues] *)

Section Unfold.

Variable methods : type -> option Merger.
Variable NewElem : type -> Value.

(** A pointer to a struct variable and a struct of the same type pass the
    three checks. *)
Lemma mergeValues_valid fuel T d flp s fls cfg prefix :
  reflect.kindOfType T = reflect.Struct ->
  let ptr := reflect.Val (reflect.TPtr T) (reflect.DPtr (Some d)) flp in
  let src := reflect.Val T s fls in
  mergeValues methods NewElem (S fuel) ptr src cfg prefix
  = if reflect.CanInterface (elemOf T d flp) && isTime (elemOf T d flp) then
      try dst' ← reflect.SetValue (elemOf T d flp) src;
      Ret (store ptr dst') None
    else if addrImplements methods (elemOf T d flp) then
      try r ← callMerger methods (elemOf T d flp) src;
      Ret (store ptr r.1) r.2
    else
      match fieldLoop
              (mergeField methods (fun d s p => mergeValues methods NewElem fuel d s cfg p)
                 cfg prefix (makeSet (Include cfg)) (makeSet (Exclude cfg)) src)
              (reflect.NumField (elemOf T d flp)) 0 (elemOf T d flp) with
      | Ret dst' err => Ret (store ptr dst') err
      | other => other
      end.
Proof.
  intros HT. cbv zeta.
  cbn [mergeValues reflect.KindOf reflect.Elem reflect.IsNil
       reflect.TypeOf negb orb]. rewrite HT. cbn [reflect.kindOfType].
  rewrite !bool_decide_eq_true_2 by done.
  rewrite (bool_decide_eq_false_2 (Some d = None)) by done.
  cbn [negb orb reflect.Elem reflect.TypeOf]. rewrite type_eqb_refl.
  reflexivity.
Qed.

Lemma isTime_other T d flp : T <> time_Time -> isTime (elemOf T d flp) = false.
Proof. intros HT. simpl. by apply type_eqb_neq. Qed.

Lemma addrImplements_elemOf T d flp :
  addrImplements methods (elemOf T d flp) = bool_decide (is_Some (methods (reflect.TPtr T))).
Proof. reflexivity. Qed.

(** A record that is neither [time.Time] nor a [Merger] is walked field by
    field. *)
Lemma mergeValues_walk fuel n fs d flp s fls cfg prefix :
  let T := reflect.TStruct n fs in
  T <> time_Time ->
  methods (reflect.TPtr T) = None ->
  mergeValues methods NewElem (S fuel)
    (reflect.Val (reflect.TPtr T) (reflect.DPtr (Some d)) flp) (reflect.Val T s fls) cfg prefix
  = match fieldLoop
            (mergeField methods (fun d s p => mergeValues methods NewElem fuel d s cfg p)
               cfg prefix (makeSet (Include cfg)) (makeSet (Exclude cfg)) (reflect.Val T s fls))
            (length fs) 0 (elemOf T d flp) with
    | Ret dst' err =>
        Ret (store (reflect.Val (reflect.TPtr T) (reflect.DPtr (Some d)) flp) dst') err
    | other => other
    end.
Proof.
  intros T HT HM. subst T. rewrite mergeValues_valid by done.
  rewrite isTime_other, addrImplements_elemOf, HM by done.
  rewrite (bool_decide_eq_false_2 (is_Some None)) by (by intros [? ?]).
  by rewrite andb_false_r.
Qed.

End Unfold.

(** ** The field walk returns no error of its own *)

Section NoError.

Variable methods : type -> option Merger.
Variable NewElem : type -> Value.

Lemma fieldLoop_error body n : forall i v r e,
  (forall j w w' e', body j w = Ret w' e' -> same w w') ->
  fieldLoop body n i v = Ret r (Some e) ->
  exists j w, same v w /\ body j w = Ret r (Some e).
Proof.
  induction n as [| n IH]; intros i v r e Hsame H; simpl in H; [done |].
  destruct (body i v) as [v1 [e1 |] | |] eqn:Hb; simplify_eq.
  - exists i, v. split; [apply same_refl | done].
  - destruct (IH _ _ _ _ Hsame H) as (j & w & Hw & Hj).
    exists j, w. split; [| done]. eapply same_trans; [| done]. by eapply Hsame.
Qed.

Lemma Field_inv T d fl j v :
  reflect.Field (reflect.Val T d fl) j = Some v ->
  exists n fs ds f x,
    T = reflect.TStruct n fs /\ d = reflect.DStruct ds /\
    fs !! j = Some f /\ ds !! j = Some x /\
    v = reflect.Val (reflect.Typ f) x
          (reflect.mkFlag (reflect.flagRO fl || negb (reflect.Exported f)) (reflect.flagAddr fl)).
Proof.
  intros H. destruct T as [| | n fs]; try done. destruct d; try done. simpl in H.
  destruct (fs !! j) as [f |] eqn:Hf; [| done].
  destruct (fields !! j) as [x |] eqn:Hx; [| done].
  simplify_eq. by exists n, fs, fields, f, x.
Qed.

(** A field that is settable and has no [Merge] method of its own. *)
Lemma plain_field_inv t x fl :
  addrImplements methods (reflect.Val t x fl) = false ->
  negb (reflect.CanSet (reflect.Val t x fl)) = false ->
  reflect.flagAddr fl = true /\ reflect.flagRO fl = false /\
  methods (reflect.TPtr t) = None.
Proof.
  unfold addrImplements. simpl. destruct fl as [[] []]; simpl; try done.
  intros H _. repeat split. apply bool_decide_eq_false in H.
  destruct (methods (reflect.TPtr t)); [| done]. by destruct H.
Qed.

(** A call on a struct whose pointer type has no [Merge] method returns nil;
    this is the case of every recursive call. *)
Lemma mergeValues_no_error fuel : forall T d flp s fls cfg prefix dst' e,
  reflect.kindOfType T = reflect.Struct ->
  methods (reflect.TPtr T) = None ->
  mergeValues methods NewElem fuel
    (reflect.Val (reflect.TPtr T) (reflect.DPtr (Some d)) flp) (reflect.Val T s fls) cfg prefix
  = Ret dst' e ->
  e = None.
Proof.
  induction fuel as [| fuel IH]; intros T d flp s fls cfg prefix dst' e HT HM H; [done |].
  rewrite mergeValues_valid in H by done.
  rewrite addrImplements_elemOf, HM in H.
  rewrite (bool_decide_eq_false_2 (is_Some None)) in H by (by intros [? ?]).
  destruct (_ && _) in H.
  { by destruct (reflect.SetValue _ _); simplify_eq. }
  destruct (fieldLoop _ _ _ _) as [r [e1 |] | |] eqn:Hloop; simplify_eq; [| done].
  exfalso. apply fieldLoop_error in Hloop as (j & w & Hw & Hb).
  2:{ intros ???? Hb. by apply mergeField_frame in Hb as [? _]. }
  destruct w as [| Tw dw flw]; [done |]. destruct Hw as [<- <-].
  unfold mergeField in Hb.
  repeat (case_match; try discriminate); simplify_eq.
  repeat match goal with
  | Hf : reflect.Field _ _ = Some _ |- _ =>
      apply Field_inv in Hf as (? & ? & ? & ? & ? & ? & ? & ? & ? & ?)
  end; simplify_eq.
  match goal with
  | Hp : addrImplements _ ?v = false, Hc : negb (reflect.CanSet ?v) = false |- _ =>
      destruct (plain_field_inv _ _ _ Hp Hc) as (Ha & Hro & Hm)
  end.
  match goal with Hb : bool_decide _ = true |- _ =>
    apply bool_decide_eq_true in Hb; simpl in Hb end.
  match goal with Hp : reflect.Addr _ = Some _ |- _ => simpl in Hp; simplify_eq end.
  match goal with Hr : mergeValues _ _ _ _ _ _ _ = Ret _ (Some _) |- _ =>
    eapply IH in Hr; done end.
Qed.

End NoError.

(** ** The three checks *)

Section Checks.

Variable methods : type -> option Merger.
Variable NewElem : type -> Value.

(** [v.Elem()] is a struct exactly when [v] is a non-nil pointer of a type
    [*T] with [T] of kind Struct. *)
Lemma Elem_struct_inv v :
  reflect.KindOf (reflect.Elem v) = reflect.Struct ->
  exists T d fl,
    v = reflect.Val (reflect.TPtr T) (reflect.DPtr (Some d)) fl /\
    reflect.kindOfType T = reflect.Struct.
Proof.
  destruct v as [| [| T |] [] fl]; try done.
  destruct target as [d |]; [| done]. simpl. intros H. by exists T, d, fl.
Qed.

Lemma mergeValues_invalid_destination fuel dst src cfg prefix :
  ~ (reflect.KindOf dst = reflect.Ptr /\
     reflect.KindOf (reflect.Elem dst) = reflect.Struct) ->
  mergeValues methods NewElem (S fuel) dst src cfg prefix
  = Ret dst (Some ErrInvalidDestination).
Proof.
  intros H. cbn [mergeValues].
  destruct (decide (reflect.KindOf dst = reflect.Ptr)) as [Hp | Hp].
  - rewrite (bool_decide_eq_true_2 _ Hp).
    rewrite bool_decide_eq_false_2 by tauto. done.
  - by rewrite (bool_decide_eq_false_2 _ Hp).
Qed.

Lemma mergeValues_invalid_source fuel T d flp src cfg prefix :
  reflect.kindOfType T = reflect.Struct ->
  reflect.KindOf src <> reflect.Struct ->
  let dst := reflect.Val (reflect.TPtr T) (reflect.DPtr (Some d)) flp in
  mergeValues methods NewElem (S fuel) dst src cfg prefix
  = Ret dst (Some ErrInvalidSource).
Proof.
  intros HT Hs. cbv zeta.
  cbn [mergeValues reflect.KindOf reflect.Elem reflect.IsNil negb orb].
  rewrite HT. cbn [reflect.kindOfType].
  rewrite !bool_decide_eq_true_2 by done.
  rewrite (bool_decide_eq_false_2 (Some d = None)) by done.
  rewrite (bool_decide_eq_false_2 _ Hs). done.
Qed.

Lemma mergeValues_type_mismatch fuel T d flp T' s fls cfg prefix :
  reflect.kindOfType T = reflect.Struct ->
  reflect.kindOfType T' = reflect.Struct ->
  T <> T' ->
  let dst := reflect.Val (reflect.TPtr T) (reflect.DPtr (Some d)) flp in
  mergeValues methods NewElem (S fuel) dst (reflect.Val T' s fls) cfg prefix
  = Ret dst (Some ErrTypeMismatch).
Proof.
  intros HT HT' Hne. cbv zeta.
  cbn [mergeValues reflect.KindOf reflect.Elem reflect.IsNil negb orb].
  rewrite HT, HT'. cbn [reflect.kindOfType].
  rewrite !bool_decide_eq_true_2 by done.
  rewrite (bool_decide_eq_false_2 (Some d = None)) by done.
  cbn [negb orb reflect.Elem reflect.TypeOf]. by rewrite type_eqb_neq.
Qed.

(** Every call either fails one of the three checks, whatever the fuel, or
    is a call on a pointer to a struct variable and a struct of that type. *)
Lemma mergeValues_checked dst src cfg prefix :
  (exists e, forall fuel,
     mergeValues methods NewElem (S fuel) dst src cfg prefix = Ret dst (Some e))
  \/ (exists T d flp s fls,
        reflect.kindOfType T = reflect.Struct /\
        dst = reflect.Val (reflect.TPtr T) (reflect.DPtr (Some d)) flp /\
        src = reflect.Val T s fls).
Proof.
  destruct (decide (reflect.KindOf dst = reflect.Ptr /\
                    reflect.KindOf (reflect.Elem dst) = reflect.Struct)) as [[_ He] | Hd].
  2:{ left. eexists. intros fuel. by apply mergeValues_invalid_destination. }
  apply Elem_struct_inv in He as (T & d & flp & -> & HT).
  destruct (decide (reflect.KindOf src = reflect.Struct)) as [Hs | Hs].
  2:{ left. eexists. intros fuel. by apply mergeValues_invalid_source. }
  destruct src as [| T' s fls]; [done |]. simpl in Hs.
  destruct (reflect.type_eqb T T') eqn:E.
  - apply type_eqb_eq in E as <-. right. by exists T, d, flp, s, fls.
  - left. eexists. intros fuel. apply mergeValues_type_mismatch; try done.
    intros ->. by rewrite type_eqb_refl in E.
Qed.

End Checks.

(** ** Fuel *)

Lemma depth_field n fs j f :
  fs !! j = Some f -> (depth (reflect.Typ f) < depth (reflect.TStruct n fs))%nat.
Proof.
  simpl. revert j. induction fs as [| [fn fe ft] r IH]; intros j Hj; [done |].
  destruct j as [| j]; simpl in Hj; simplify_eq; simpl.
  - lia.
  - specialize (IH _ Hj). simpl in IH. lia.
Qed.

Section Fuel.

Variable methods : type -> option Merger.
Variable NewElem : type -> Value.

Lemma fieldLoop_ext body1 body2 n : forall i v,
  (forall j w, same v w -> body1 j w = body2 j w) ->
  (forall j w w' e, body1 j w = Ret w' e -> same w w') ->
  fieldLoop body1 n i v = fieldLoop body2 n i v.
Proof.
  induction n as [| n IH]; intros i v Hext Hsame; [done |].
  simpl. rewrite <- Hext by apply same_refl.
  destruct (body1 i v) as [v1 [e1 |] | |] eqn:Hb; try done.
  apply IH; [| done]. intros j w Hw. apply Hext.
  eapply same_trans; [| done]. by eapply Hsame.
Qed.

Lemma mergeField_ext rec1 rec2 cfg prefix im em src j w :
  (forall f x fl s pre,
     reflect.TypeField w j = Some f ->
     rec1 (reflect.Val (reflect.TPtr (reflect.Typ f)) (reflect.DPtr (Some x)) fl) s pre
     = rec2 (reflect.Val (reflect.TPtr (reflect.Typ f)) (reflect.DPtr (Some x)) fl) s pre) ->
  mergeField methods rec1 cfg prefix im em src j w
  = mergeField methods rec2 cfg prefix im em src j w.
Proof.
  intros Hrec. unfold mergeField.
  destruct (reflect.TypeField w j) as [f |] eqn:Hf; [| done].
  destruct (_ && _); [done |]. destruct (index _ _); [done |].
  destruct (reflect.Field w j) as [dstField |] eqn:Hd; [| done].
  destruct (reflect.Field src j) as [srcField |]; [| done].
  destruct (addrImplements _ _); [done |]. destruct (negb _); [done |].
  destruct (bool_decide _); [| done].
  destruct (reflect.Addr dstField) as [p |] eqn:Hp; [| done].
  destruct w as [| T dw flw]; [done |].
  apply Field_inv in Hd as (n & fs & ds & f' & x & -> & -> & Hf' & Hx & ->).
  simpl in Hf. simplify_eq. simpl in Hp. case_match; simplify_eq.
  by rewrite Hrec.
Qed.

Lemma mergeField_fuel rec cfg prefix im em src j w :
  mergeField methods rec cfg prefix im em src j w = OutOfFuel ->
  exists f x fl s pre,
    reflect.TypeField w j = Some f /\
    rec (reflect.Val (reflect.TPtr (reflect.Typ f)) (reflect.DPtr (Some x)) fl) s pre
    = OutOfFuel.
Proof.
  unfold mergeField.
  destruct (reflect.TypeField w j) as [f |] eqn:Hf; [| done].
  destruct (_ && _); [done |]. destruct (index _ _); [done |].
  destruct (reflect.Field w j) as [dstField |] eqn:Hd; [| done].
  destruct (reflect.Field src j) as [srcField |]; [| done].
  destruct (addrImplements _ _); [by destruct (callMerger _ _ _) |].
  destruct (negb _); [done |].
  destruct (bool_decide _).
  2:{ repeat (case_match; try done). }
  destruct (reflect.Addr dstField) as [p |] eqn:Hp; [| done].
  destruct w as [| T dw flw]; [done |].
  apply Field_inv in Hd as (n & fs & ds & f' & x & -> & -> & Hf' & Hx & ->).
  simpl in Hf. simplify_eq. simpl in Hp. case_match; simplify_eq.
  destruct (rec _ _ _) eqn:Hr; try done. intros _. eauto 10.
Qed.

Lemma fieldLoop_fuel body n : forall i v,
  (forall j w, same v w -> body j w <> OutOfFuel) ->
  (forall j w w' e, body j w = Ret w' e -> same w w') ->
  fieldLoop body n i v <> OutOfFuel.
Proof.
  induction n as [| n IH]; intros i v Hb Hsame; [done |].
  simpl. destruct (body i v) as [v1 [e1 |] | |] eqn:Hbi; try done.
  - apply IH; [| done]. intros j w Hw. apply Hb.
    eapply same_trans; [| done]. by eapply Hsame.
  - by apply Hb in Hbi; [| apply same_refl].
Qed.

(** Fuel above the nesting depth of the destination type is enough, and
    more fuel changes nothing. *)
Lemma mergeValues_fuel fuel1 : forall fuel2 t d fl src cfg prefix,
  (depth t < fuel1)%nat -> (depth t < fuel2)%nat ->
  mergeValues methods NewElem fuel1 (reflect.Val t d fl) src cfg prefix
  = mergeValues methods NewElem fuel2 (reflect.Val t d fl) src cfg prefix
  /\ mergeValues methods NewElem fuel1 (reflect.Val t d fl) src cfg prefix <> OutOfFuel.
Proof.
  induction fuel1 as [| fuel1 IH]; intros fuel2 t d fl src cfg prefix H1 H2; [lia |].
  destruct fuel2 as [| fuel2]; [lia |].
  destruct (mergeValues_checked methods NewElem (reflect.Val t d fl) src cfg prefix)
    as [[e He] | (T & d' & flp & s & fls & HT & Hd & ->)].
  { rewrite !He. done. }
  simplify_eq. rewrite !mergeValues_valid by done.
  destruct (_ && _); [by destruct (reflect.SetValue _ _) |].
  destruct (addrImplements _ _); [by destruct (callMerger _ _ _) |].
  set (body1 := mergeField methods (fun d s p => mergeValues methods NewElem fuel1 d s cfg p) _ _ _ _ _).
  set (body2 := mergeField methods (fun d s p => mergeValues methods NewElem fuel2 d s cfg p) _ _ _ _ _).
  assert (Hext : forall j w, same (elemOf T d' flp) w -> body1 j w = body2 j w
                             /\ body1 j w <> OutOfFuel).
  { intros j [| Tw dw flw] Hw; [done |]. destruct Hw as [<- <-].
    assert (Hrec : forall f x fl0 s0 pre fuel,
      reflect.TypeField (elemOf T dw flp) j = Some f -> (depth T < S fuel)%nat ->
      mergeValues methods NewElem fuel1
        (reflect.Val (reflect.TPtr (reflect.Typ f)) (reflect.DPtr (Some x)) fl0) s0 cfg pre
      = mergeValues methods NewElem fuel
          (reflect.Val (reflect.TPtr (reflect.Typ f)) (reflect.DPtr (Some x)) fl0) s0 cfg pre
      /\ mergeValues methods NewElem fuel1
           (reflect.Val (reflect.TPtr (reflect.Typ f)) (reflect.DPtr (Some x)) fl0) s0 cfg pre
         <> OutOfFuel).
    { intros f x fl0 s0 pre fuel Hf Hfuel. destruct T as [| | n fs]; try done.
      simpl in Hf. apply (depth_field n) in Hf.
      apply IH; simpl in *; lia. }
    split.
    - apply mergeField_ext. intros f x fl0 s0 pre Hf. by apply Hrec.
    - intros (f & x & fl0 & s0 & pre & Hf & Hoof)%mergeField_fuel.
      by apply (Hrec f x fl0 s0 pre fuel1) in Hoof. }
  assert (Hsame : forall j w w' e, body1 j w = Ret w' e -> same w w').
  { intros j w w' e Hb. by apply mergeField_frame in Hb as [? _]. }
  rewrite (fieldLoop_ext body1 body2) by (intros; by apply Hext || by eapply Hsame).
  split; [done |].
  rewrite <- (fieldLoop_ext body1 body2) by (intros; by apply Hext || by eapply Hsame).
  pose proof (fieldLoop_fuel body1 (reflect.NumField (elemOf T d' flp)) 0 (elemOf T d' flp)) as Hf.
  destruct (fieldLoop body1 _ _ _); try done.
  exfalso. apply Hf; [intros; by apply Hext | done | done].
Qed.

End Fuel.

Arguments mergeValues : simpl never.
Arguments mergeField : simpl never.

(** [Merge] never runs out of fuel, and is [mergeValues] at any fuel above
    the nesting depth of the destination type. *)
Lemma Merge_fuel methods NewElem t d src cfg fuel :
  (depth t < fuel)%nat ->
  Merge methods NewElem (Some (t, d)) src cfg
  = mergeValues methods NewElem fuel (reflect.ValueOf (Some (t, d))) (reflect.ValueOf src)
      (configOf cfg) "".
Proof.
  intros H. unfold Merge, fuelFor. cbn [reflect.ValueOf].
  apply (mergeValues_fuel methods NewElem (S (depth t)) fuel); lia.
Qed.

Lemma Merge_total methods NewElem dst src cfg :
  Merge methods NewElem dst src cfg <> OutOfFuel.
Proof.
  unfold Merge. destruct dst as [[t d] |]; cbn [reflect.ValueOf fuelFor].
  - apply (mergeValues_fuel methods NewElem (S (depth t)) (S (depth t))); lia.
  - by rewrite mergeValues_invalid_destination by (by intros [? ?]).
Qed.

(** ** Validation (the three errors) *)

Lemma pointsToStruct_Elem dst :
  pointsToStruct dst <->
  reflect.KindOf (reflect.ValueOf dst) = reflect.Ptr /\
  reflect.KindOf (reflect.Elem (reflect.ValueOf dst)) = reflect.Struct.
Proof.
  split.
  - intros (T & d & -> & HT). done.
  - intros [_ (T & d & fl & Hv & HT)%Elem_struct_inv].
    destruct dst as [[t x] |]; [| done]. simpl in Hv. simplify_eq. by exists T, d.
Qed.

Lemma isStruct_Kind src :
  isStruct src <-> reflect.KindOf (reflect.ValueOf src) = reflect.Struct.
Proof.
  split.
  - intros (T & s & -> & HT). done.
  - destruct src as [[t x] |]; [| done]. simpl. intros HT. by exists t, x.
Qed.

(** ** One field of a record that is walked *)

Lemma passesFilters_tests cfg full :
  passesFilters cfg full ->
  bool_decide (0 < length (Include cfg)) && negb (shouldInclude full (makeSet (Include cfg)))
  = false
  /\ index (makeSet (Exclude cfg)) full = false.
Proof.
  intros [Hi He]. split.
  - destruct Hi as [-> | ->]; [done | by rewrite andb_false_r].
  - rewrite index_makeSet. by apply bool_decide_eq_false.
Qed.

Section WalkField.

Variable methods : type -> option Merger.
Variable NewElem : type -> Value.

(** When a call on a walked record returns, it returns nil, and each field
    has gone through one iteration of the loop, which saw the field as it
    was before the call. *)
Lemma walk_field fuel n fs d0 flp s0 fls cfg prefix dst' err k f d :
  let T := reflect.TStruct n fs in
  T <> time_Time ->
  methods (reflect.TPtr T) = None ->
  mergeValues methods NewElem fuel
    (reflect.Val (reflect.TPtr T) (reflect.DPtr (Some d0)) flp) (reflect.Val T s0 fls) cfg prefix
  = Ret dst' err ->
  fs !! k = Some f ->
  fieldOf d0 k = Some d ->
  err = None /\
  exists fuel' ds w',
    fuel = S fuel' /\ ds !! k = Some d /\
    mergeField methods (fun d s p => mergeValues methods NewElem fuel' d s cfg p)
      cfg prefix (makeSet (Include cfg)) (makeSet (Exclude cfg)) (reflect.Val T s0 fls)
      k (elemOf T (reflect.DStruct ds) flp)
    = Ret w' None /\
    pointee dst' ≫= (fun x => fieldOf x k) = fieldData w' k.
Proof.
  intros T HT HM H Hf Hd.
  assert (err = None) as -> by (by eapply mergeValues_no_error in H).
  split; [done |]. destruct fuel as [| fuel']; [done |].
  subst T. rewrite mergeValues_walk in H by done.
  destruct (fieldLoop _ _ _ _) as [r e | |] eqn:Hloop; simplify_eq.
  apply (fieldLoop_at _ _ _ _ _ _ _ _ _ _ _ k) in Hloop
    as (w & w' & Hw & Hwk & Hb & Hr & Hsr); [| apply lookup_lt_Some in Hf; lia].
  destruct w as [| Tw dw flw]; [done |]. destruct Hw as [<- <-].
  simpl in Hwk. rewrite Hd in Hwk. destruct dw as [| | | | | | | | | | | | ds]; try done.
  exists fuel', ds, w'. repeat split; try done.
  rewrite <- Hr. by destruct r.
Qed.

End WalkField.

(** ** The include filter *)

Lemma Contains_nested p name : Contains ((p +:+ ".") +:+ name) "." = true.
Proof.
  induction p as [| c p IH]; [by destruct name |].
  change (Contains (String c ((p +:+ ".") +:+ name)) "." = true).
  cbn [Contains]. rewrite IH. apply orb_true_r.
Qed.

Lemma shouldInclude_spec name include :
  shouldInclude name (makeSet include) = true <->
  name ∈ include \/
  (Contains name "." = false /\ exists key, key ∈ include /\ HasPrefix key name = true).
Proof.
  unfold shouldInclude. rewrite index_makeSet.
  case_bool_decide as Hin; [split; [by left | done] |].
  destruct (Contains name ".") eqn:Hc; simpl.
  - split; [done |]. intros [? | [? _]]; done.
  - rewrite existsb_exists. split.
    + intros (key & Hkey & Hp). right. split; [done |]. exists key.
      split; [| done]. by apply keys_makeSet, list_elem_of_In.
    + intros [? | [_ (key & Hkey & Hp)]]; [done |]. exists key.
      split; [| done]. by apply list_elem_of_In, keys_makeSet.
Qed.

(** ** time.Time *)

Lemma mergeValues_time methods NewElem fuel d s flp fls cfg prefix :
  reflect.flagRO flp = false ->
  reflect.flagRO fls = false ->
  mergeValues methods NewElem (S fuel)
    (reflect.Val (reflect.TPtr time_Time) (reflect.DPtr (Some d)) flp)
    (reflect.Val time_Time s fls) cfg prefix
  = Ret (reflect.Val (reflect.TPtr time_Time) (reflect.DPtr (Some s)) flp) None.
Proof.
  intros Hp Hs. rewrite mergeValues_valid by done.
  unfold elemOf. cbn [reflect.CanInterface isTime reflect.flagRO reflect.SetValue
    reflect.CanSet reflect.flagAddr]. rewrite Hp, Hs, !type_eqb_refl. done.
Qed.

(** ** Leaf fields and the three policies *)

Lemma isZero_isEmpty t d fl : isZero (reflect.Val t d fl) = isEmpty t d.
Proof. reflexivity. Qed.

Lemma Field_struct n fs ds fl k f d :
  fs !! k = Some f -> ds !! k = Some d ->
  reflect.Field (reflect.Val (reflect.TStruct n fs) (reflect.DStruct ds) fl) k
  = Some (reflect.Val (reflect.Typ f) d
            (reflect.mkFlag (reflect.flagRO fl || negb (reflect.Exported f))
               (reflect.flagAddr fl))).
Proof. intros Hf Hd. simpl. by rewrite Hf, Hd. Qed.

Section Leaf.

Variable methods : type -> option Merger.
Variable NewElem : type -> Value.

(** A settable field that is not a struct, passes the filters and has no
    [Merge] method: the policy decides between the source's value and the
    destination's. *)
Lemma leaf_field fuel n fs ds flp ss fls cfg prefix dst' err k f d s :
  let T := reflect.TStruct n fs in
  T <> time_Time ->
  methods (reflect.TPtr T) = None ->
  mergeValues methods NewElem fuel
    (reflect.Val (reflect.TPtr T) (reflect.DPtr (Some (reflect.DStruct ds))) flp)
    (reflect.Val T (reflect.DStruct ss) fls) cfg prefix
  = Ret dst' err ->
  fs !! k = Some f -> ds !! k = Some d -> ss !! k = Some s ->
  reflect.kindOfType (reflect.Typ f) <> reflect.Struct ->
  reflect.Exported f = true ->
  reflect.flagRO flp = false ->
  methods (reflect.TPtr (reflect.Typ f)) = None ->
  passesFilters cfg (prefix +:+ reflect.Name f) ->
  exists set,
    shouldSet cfg (reflect.Typ f) d s = Some set /\
    pointee dst' ≫= (fun x => fieldOf x k)
    = Some (if set || bool_decide (Option cfg = IncludeAll) then s else d).
Proof.
  intros T HT HM H Hf Hd Hs Hkind Hex Hro HMf Hpass.
  destruct (walk_field _ _ _ _ _ _ _ _ _ _ _ _ _ _ _ _ HT HM H Hf Hd)
    as (-> & fuel' & ds' & w' & -> & Hk & Hb & Hres).
  rewrite Hres. clear Hres H.
  destruct (passesFilters_tests _ _ Hpass) as [Hp1 Hp2].
  unfold mergeField, elemOf in Hb. cbn [reflect.TypeField reflect.Field] in Hb.
  rewrite Hf, Hk, Hs, Hp1, Hp2 in Hb.
  unfold addrImplements in Hb.
  cbn [reflect.CanAddr reflect.Addr reflect.flagAddr reflect.flagRO reflect.CanSet
       reflect.KindOf] in Hb.
  rewrite HMf, Hex, Hro in Hb. cbn [orb negb andb] in Hb.
  rewrite (bool_decide_eq_false_2 (is_Some None)) in Hb by (by intros [? ?]).
  rewrite (bool_decide_eq_false_2 _ Hkind) in Hb.
  rewrite !isZero_isEmpty in Hb. fold (shouldSet cfg (reflect.Typ f) d s) in Hb.
  destruct (shouldSet cfg (reflect.Typ f) d s) as [set |]; [| done].
  exists set. split; [done |].
  destruct (set || bool_decide (Option cfg = IncludeAll)).
  - destruct (reflect.SetValue _ _) as [v |] eqn:Hset; [| done].
    simpl in Hset. rewrite type_eqb_refl in Hset.
    destruct (reflect.flagRO fls); simpl in Hset; simplify_eq.
    simpl. apply list_lookup_insert_eq. by eapply lookup_lt_Some.
  - by simplify_eq.
Qed.

(** A field that is not exported keeps the destination's value, whatever
    the configuration. *)
Lemma private_field fuel n fs d0 flp s0 fls cfg prefix dst' err k f d :
  let T := reflect.TStruct n fs in
  T <> time_Time ->
  methods (reflect.TPtr T) = None ->
  mergeValues methods NewElem fuel
    (reflect.Val (reflect.TPtr T) (reflect.DPtr (Some d0)) flp) (reflect.Val T s0 fls) cfg prefix
  = Ret dst' err ->
  fs !! k = Some f -> fieldOf d0 k = Some d ->
  reflect.Exported f = false ->
  pointee dst' ≫= (fun x => fieldOf x k) = Some d.
Proof.
  intros T HT HM H Hf Hd Hex.
  destruct (walk_field _ _ _ _ _ _ _ _ _ _ _ _ _ _ _ _ HT HM H Hf Hd)
    as (-> & fuel' & ds' & w' & -> & Hk & Hb & Hres).
  rewrite Hres. clear Hres H.
  unfold mergeField, elemOf in Hb. cbn [reflect.TypeField] in Hb.
  rewrite Hf, (Field_struct _ _ _ _ _ _ _ Hf Hk) in Hb.
  destruct (_ && _) in Hb; [by simplify_eq |].
  destruct (index _ _) in Hb; [by simplify_eq |].
  destruct (reflect.Field _ _) in Hb; [| done].
  unfold addrImplements, callMerger in Hb.
  cbn [reflect.CanAddr reflect.Addr reflect.flagAddr reflect.flagRO reflect.CanSet
       reflect.CanInterface mbind option_bind] in Hb.
  rewrite Hex in Hb. rewrite orb_true_r in Hb. cbn [negb andb] in Hb.
  destruct (bool_decide _) in Hb; [done | by simplify_eq].
Qed.

End Leaf.

(** *** The emptiness predicate in the words of the specification *)

Lemma SFeqb_zero f :
  SFeqb f (S754_zero false) = match f with S754_zero _ => true | _ => false end.
Proof. by destruct f as [[] | [] | | [] m e]. Qed.

(** [isZero] agrees with the words of the specification on every kind but
    [Uintptr], which its switch does not list. *)
Lemma isEmpty_emptyPerSpec t d b :
  reflect.kindOfType t <> reflect.Uintptr ->
  isEmpty t d = Some b ->
  b = emptyPerSpec (reflect.kindOfType t) d.
Proof.
  unfold isEmpty, isZero. cbn [reflect.KindOf]. intros Hk H.
  destruct (reflect.kindOfType t); try done; destruct d; simpl in H; simplify_eq;
    try done; try (by rewrite SFeqb_zero; destruct f);
    try (by destruct elems); try (by destruct entries);
    try (by destruct target); try (by destruct dyn); try (by destruct id).
Qed.

Lemma isEmpty_uintptr n d : isEmpty (reflect.TBasic n reflect.Uintptr) d = Some false.
Proof. reflexivity. Qed.

(** ** The Merger interface *)

Section Silent.

Variable methods : type -> option Merger.
Variable NewElem : type -> Value.





End Silent.

(** ** IncludeAll on whole records *)

Lemma hasType_struct n fs ds :
  hasType (reflect.TStruct n fs) (reflect.DStruct ds) = hasTypeFields fs ds.
Proof.
  simpl. revert ds. induction fs as [| [fn fe ft] r IH]; intros [| x dr]; try done.
  simpl. by rewrite IH.
Qed.

Lemma mergerFree_struct methods n fs :
  mergerFree methods (reflect.TStruct n fs)
  = bool_decide (methods (reflect.TPtr (reflect.TStruct n fs)) = None)
    && mergerFreeFields methods fs.
Proof.
  simpl. f_equal. induction fs as [| [fn fe ft] r IH]; [done |].
  simpl. by rewrite IH.
Qed.

Lemma overlay_struct n fs ds ss :
  reflect.TStruct n fs <> time_Time ->
  overlay (reflect.TStruct n fs) (reflect.DStruct ds) (reflect.DStruct ss)
  = reflect.DStruct (overlayFields fs ds ss).
Proof.
  intros HT. cbn [overlay]. rewrite (type_eqb_neq _ _ HT). f_equal. clear HT.
  revert ds ss. induction fs as [| [fn fe ft] r IH]; intros [| x dr] [| y sr]; try done.
  cbn [overlayFields]. by rewrite IH.
Qed.

Lemma overlay_time d s : overlay time_Time d s = s.
Proof. reflexivity. Qed.

Lemma hasTypeFields_lookup fs ds i f :
  hasTypeFields fs ds = true -> fs !! i = Some f ->
  exists x, ds !! i = Some x /\ hasType (reflect.Typ f) x = true.
Proof.
  revert ds i. induction fs as [| g r IH]; intros [| x dr] i H Hf; try done.
  simpl in H. apply andb_true_iff in H as [Hx Hr].
  destruct i as [| i]; simpl in Hf; simplify_eq; [by exists x |].
  exact (IH dr i Hr Hf).
Qed.

Lemma hasTypeFields_length fs ds : hasTypeFields fs ds = true -> length ds = length fs.
Proof.
  revert ds. induction fs as [| g r IH]; intros [| x dr] H; try done.
  simpl in H. apply andb_true_iff in H as [_ Hr]. simpl. by rewrite (IH _ Hr).
Qed.

Lemma mergerFreeFields_lookup methods fs i f :
  mergerFreeFields methods fs = true -> fs !! i = Some f ->
  mergerFree methods (reflect.Typ f) = true.
Proof.
  revert i. induction fs as [| g r IH]; intros i H Hf; [done |].
  simpl in H. apply andb_true_iff in H as [Hx Hr].
  destruct i as [| i]; simpl in Hf; simplify_eq; [done |]. by eapply IH.
Qed.

Lemma overlayFields_lookup fs ds ss i f x y :
  fs !! i = Some f -> ds !! i = Some x -> ss !! i = Some y ->
  overlayFields fs ds ss !! i = Some (overlayField f x y).
Proof.
  revert ds ss i. induction fs as [| g r IH]; intros [| x' dr] [| y' sr] i Hf Hx Hy;
    try done.
  destruct i as [| i]; simpl in *; simplify_eq; [done |]. exact (IH _ _ _ Hf Hx Hy).
Qed.

Lemma overlayFields_length fs ds ss :
  length ds = length fs -> length ss = length fs ->
  length (overlayFields fs ds ss) = length fs.
Proof.
  revert ds ss. induction fs as [| g r IH]; intros [| x dr] [| y sr] Hd Hs; try done.
  simpl in *. rewrite IH; lia.
Qed.

Lemma mergerFree_None methods t :
  mergerFree methods t = true -> methods (reflect.TPtr t) = None.
Proof.
  destruct t; simpl; intros H; apply andb_true_iff in H as [H _];
    by apply bool_decide_eq_true in H.
Qed.

Lemma hasType_struct_inv t d :
  reflect.kindOfType t = reflect.Struct -> hasType t d = true ->
  exists n fs ds, t = reflect.TStruct n fs /\ d = reflect.DStruct ds /\
                  hasTypeFields fs ds = true.
Proof.
  destruct t as [n k | e | n fs]; simpl; intros Hk H; try done.
  - subst k. by destruct d.
  - destruct d; try done. exists n, fs, fields. by rewrite <- (hasType_struct n).
Qed.

Section IncludeAll.

Variable methods : type -> option Merger.
Variable NewElem : type -> Value.

Lemma fieldLoop_overlay body T fl fs ds ss :
  length ds = length fs -> length ss = length fs ->
  (forall i cur f x y,
     fs !! i = Some f -> cur !! i = Some x -> ds !! i = Some x -> ss !! i = Some y ->
     body i (reflect.Val T (reflect.DStruct cur) fl)
     = Ret (reflect.Val T (reflect.DStruct (<[i := overlayField f x y]> cur)) fl) None) ->
  forall m i cur,
    (i + m = length fs)%nat ->
    length cur = length fs ->
    (forall j, cur !! j = if decide (j < i)%nat then overlayFields fs ds ss !! j else ds !! j) ->
    fieldLoop body m i (reflect.Val T (reflect.DStruct cur) fl)
    = Ret (reflect.Val T (reflect.DStruct (overlayFields fs ds ss)) fl) None.
Proof.
  intros Hds Hss Hbody. induction m as [| m IH]; intros i cur Him Hlen Hcur.
  - simpl. do 3 f_equal. apply list_eq. intros j. rewrite Hcur.
    case_decide as Hj; [done |].
    rewrite !lookup_ge_None_2; [done | |]; [rewrite overlayFields_length |]; lia.
  - assert (Hi : (i < length fs)%nat) by lia.
    destruct (lookup_lt_is_Some_2 fs i Hi) as [f Hf].
    destruct (lookup_lt_is_Some_2 ds i) as [x Hx]; [lia |].
    destruct (lookup_lt_is_Some_2 ss i) as [y Hy]; [lia |].
    assert (Hci : cur !! i = Some x).
    { rewrite Hcur. case_decide; [lia | done]. }
    cbn [fieldLoop]. rewrite (Hbody i cur f x y) by done.
    apply IH; [lia | by rewrite length_insert |].
    intros j. destruct (decide (j = i)) as [-> | Hne].
    + rewrite list_lookup_insert_eq by lia. case_decide; [| lia].
      symmetry. by apply overlayFields_lookup.
    + rewrite list_lookup_insert_ne by done. rewrite Hcur.
      repeat case_decide; try done; lia.
Qed.

(** With the default configuration, and no [Merge] method in sight, a call
    of [mergeValues] is [overlay]. *)
Lemma mergeValues_overlay fuel : forall T d s flp fls prefix,
  (depth T < fuel)%nat ->
  reflect.kindOfType T = reflect.Struct ->
  hasType T d = true -> hasType T s = true ->
  mergerFree methods T = true ->
  reflect.flagRO flp = false -> reflect.flagRO fls = false ->
  mergeValues methods NewElem fuel
    (reflect.Val (reflect.TPtr T) (reflect.DPtr (Some d)) flp) (reflect.Val T s fls)
    defaultConfig prefix
  = Ret (reflect.Val (reflect.TPtr T) (reflect.DPtr (Some (overlay T d s))) flp) None.
Proof.
  induction fuel as [| fuel IH]; intros T d s flp fls prefix Hfuel HT Hd Hs HM Hro Hsro;
    [lia |].
  destruct (reflect.type_eqb T time_Time) eqn:Htime.
  { apply type_eqb_eq in Htime as ->. by rewrite mergeValues_time. }
  assert (T <> time_Time) as HnT by (intros ->; by rewrite type_eqb_refl in Htime).
  destruct (hasType_struct_inv _ _ HT Hd) as (n & fs & ds & -> & -> & Hds).
  destruct s as [| | | | | | | | | | | | ss]; try done.
  rewrite hasType_struct in Hs. rename Hs into Hss.
  rewrite mergerFree_struct in HM. apply andb_true_iff in HM as [HM HMfs].
  apply bool_decide_eq_true in HM.
  rewrite mergeValues_walk by done. rewrite overlay_struct by done.
  pose proof (hasTypeFields_length _ _ Hds) as Hlds.
  pose proof (hasTypeFields_length _ _ Hss) as Hlss.
  unfold elemOf. rewrite Hro.
  rewrite (fieldLoop_overlay _ _ _ fs ds ss Hlds Hlss); [done | | lia | done |].
  2:{ intros j. case_decide; [lia | done]. }
  intros i cur f x y Hf Hci Hx Hy.
  destruct (hasTypeFields_lookup _ _ _ _ Hds Hf) as (x' & Hx' & Htx).
  destruct (hasTypeFields_lookup _ _ _ _ Hss Hf) as (y' & Hy' & Hty). simplify_eq.
  pose proof (mergerFreeFields_lookup _ _ _ _ HMfs Hf) as HMf.
  pose proof (mergerFree_None _ _ HMf) as HMp.
  unfold mergeField. cbn [reflect.TypeField]. rewrite Hf.
  rewrite (Field_struct _ _ _ _ _ _ _ Hf Hci), (Field_struct _ _ _ _ _ _ _ Hf Hy).
  cbn [Include Exclude defaultConfig length]. rewrite index_makeSet.
  rewrite (bool_decide_eq_false_2 (0 < 0)%nat) by lia.
  rewrite (bool_decide_eq_false_2 (_ ∈ [])) by apply not_elem_of_nil.
  cbn [andb]. unfold addrImplements.
  cbn [reflect.CanAddr reflect.Addr reflect.flagAddr reflect.flagRO reflect.CanSet
       reflect.KindOf].
  rewrite HMp, Hsro. rewrite (bool_decide_eq_false_2 (is_Some None)) by (by intros [? ?]).
  unfold overlayField. destruct (reflect.Exported f) eqn:Hex; cbn [orb negb andb].
  2:{ by rewrite list_insert_id. }
  case_bool_decide as Hk.
  - rewrite IH; try done.
    apply (depth_field n) in Hf. simpl in *. lia.
  - cbn [Option defaultConfig].
    rewrite (bool_decide_eq_false_2 (IncludeAll = ExcludeEmpty)) by done.
    rewrite (bool_decide_eq_false_2 (IncludeAll = OverwriteEmpty)) by done.
    cbn [orb reflect.SetValue reflect.CanSet reflect.flagAddr reflect.flagRO negb andb].
    by rewrite type_eqb_refl.
Qed.

End IncludeAll.

(** Without [time.Time], [overlay] is the claim's own description. *)
Lemma overlay_timeFree T :
  timeFree T = true -> forall d s, overlay T d s = sourceExceptPrivate T d s.
Proof.
  induction T as [n k | e IH | n fs IH] using type_nested_ind; intros Ht d s; try done.
  cbn [timeFree] in Ht. apply andb_true_iff in Ht as [Hne Hfs].
  apply negb_true_iff in Hne. cbn [overlay sourceExceptPrivate]. rewrite Hne.
  destruct d as [| | | | | | | | | | | | ds]; try done.
  destruct s as [| | | | | | | | | | | | ss]; try done.
  f_equal. clear Hne. revert ds ss.
  induction IH as [| [fn fe ft] r Hf _ IHr]; intros [| x dr] [| y sr]; try done.
  apply andb_true_iff in Hfs as [Hft Hr]. simpl in Hf.
  rewrite (IHr Hr). by rewrite (Hf Hft).
Qed.

(** ** Fields that the filters skip, and [time.Time] fields *)

Section Skipped.

Variable methods : type -> option Merger.
Variable NewElem : type -> Value.

(** A field whose qualified path is in the exclude list is left alone. *)
Lemma excluded_field fuel n fs d0 flp s0 fls cfg prefix dst' err k f d :
  let T := reflect.TStruct n fs in
  T <> time_Time ->
  methods (reflect.TPtr T) = None ->
  mergeValues methods NewElem fuel
    (reflect.Val (reflect.TPtr T) (reflect.DPtr (Some d0)) flp) (reflect.Val T s0 fls) cfg prefix
  = Ret dst' err ->
  fs !! k = Some f ->
  fieldOf d0 k = Some d ->
  prefix +:+ reflect.Name f ∈ Exclude cfg ->
  pointee dst' ≫= (fun x => fieldOf x k) = Some d.
Proof.
  intros T HT HM H Hf Hd Hex.
  destruct (walk_field _ _ _ _ _ _ _ _ _ _ _ _ _ _ _ _ HT HM H Hf Hd)
    as (-> & fuel' & ds & w' & -> & Hk & Hb & Hres).
  rewrite Hres. clear Hres H.
  unfold mergeField, elemOf in Hb. cbn [reflect.TypeField] in Hb. rewrite Hf in Hb.
  assert (index (makeSet (Exclude cfg)) (prefix +:+ reflect.Name f) = true) as Hidx
    by (by rewrite index_makeSet, bool_decide_eq_true).
  rewrite Hidx in Hb.
  destruct (bool_decide (0 < length (Include cfg)) && _) in Hb; simplify_eq; done.
Qed.

(** With a non-empty include list, a field for which [shouldInclude] fails
    is left alone. *)
Lemma unincluded_field fuel n fs d0 flp s0 fls cfg prefix dst' err k f d :
  let T := reflect.TStruct n fs in
  T <> time_Time ->
  methods (reflect.TPtr T) = None ->
  mergeValues methods NewElem fuel
    (reflect.Val (reflect.TPtr T) (reflect.DPtr (Some d0)) flp) (reflect.Val T s0 fls) cfg prefix
  = Ret dst' err ->
  fs !! k = Some f ->
  fieldOf d0 k = Some d ->
  Include cfg <> [] ->
  shouldInclude (prefix +:+ reflect.Name f) (makeSet (Include cfg)) = false ->
  pointee dst' ≫= (fun x => fieldOf x k) = Some d.
Proof.
  intros T HT HM H Hf Hd Hinc Hsi.
  destruct (walk_field _ _ _ _ _ _ _ _ _ _ _ _ _ _ _ _ HT HM H Hf Hd)
    as (-> & fuel' & ds & w' & -> & Hk & Hb & Hres).
  rewrite Hres. clear Hres H.
  unfold mergeField, elemOf in Hb. cbn [reflect.TypeField] in Hb. rewrite Hf in Hb.
  rewrite Hsi in Hb. rewrite bool_decide_eq_true_2 in Hb.
  - simpl in Hb. by simplify_eq.
  - destruct (Include cfg); [done | simpl; lia].
Qed.

(** A settable field of type [time.Time] that passes the filters takes the
    source's value, whatever the policy. *)
Lemma time_field fuel n fs ds flp ss fls cfg prefix dst' err k f d s :
  let T := reflect.TStruct n fs in
  T <> time_Time ->
  methods (reflect.TPtr T) = None ->
  mergeValues methods NewElem fuel
    (reflect.Val (reflect.TPtr T) (reflect.DPtr (Some (reflect.DStruct ds))) flp)
    (reflect.Val T (reflect.DStruct ss) fls) cfg prefix
  = Ret dst' err ->
  fs !! k = Some f -> ds !! k = Some d -> ss !! k = Some s ->
  reflect.Typ f = time_Time ->
  methods (reflect.TPtr time_Time) = None ->
  reflect.Exported f = true ->
  reflect.flagRO flp = false ->
  passesFilters cfg (prefix +:+ reflect.Name f) ->
  pointee dst' ≫= (fun x => fieldOf x k) = Some s.
Proof.
  intros T HT HM H Hf Hd Hs Htime HMt Hex Hro Hpass.
  destruct (walk_field _ _ _ _ _ _ _ _ _ _ _ _ _ _ _ _ HT HM H Hf Hd)
    as (-> & fuel' & ds' & w' & -> & Hk & Hb & Hres).
  rewrite Hres. clear Hres H.
  destruct (passesFilters_tests _ _ Hpass) as [Hp1 Hp2].
  unfold mergeField, elemOf in Hb. cbn [reflect.TypeField reflect.Field] in Hb.
  rewrite Hf, Hk, Hs, Hp1, Hp2 in Hb.
  unfold addrImplements in Hb.
  cbn [reflect.CanAddr reflect.Addr reflect.flagAddr reflect.flagRO reflect.CanSet
       reflect.KindOf] in Hb.
  rewrite Htime, HMt, Hex, Hro in Hb. cbn [orb negb andb reflect.kindOfType time_Time] in Hb.
  rewrite (bool_decide_eq_false_2 (is_Some None)) in Hb by (by intros [? ?]).
  rewrite bool_decide_eq_true_2 in Hb by done.
  destruct fuel' as [| fuel'']; [done |].
  destruct (reflect.flagRO fls) eqn:Hsro.
  - rewrite mergeValues_valid in Hb by done.
    unfold elemOf in Hb. cbn [reflect.CanInterface isTime reflect.flagRO reflect.SetValue
      reflect.CanSet reflect.flagAddr orb negb andb] in Hb.
    rewrite type_eqb_refl in Hb. done.
  - rewrite mergeValues_time in Hb by done. simplify_eq.
    simpl. apply list_lookup_insert_eq. by eapply lookup_lt_Some.
Qed.

End Skipped.

(** ** Well-typed records without [Merge] methods: the merge returns *)

Lemma isEmpty_total t d : hasType t d = true -> exists b, isEmpty t d = Some b.
Proof.
  unfold isEmpty, isZero. cbn [reflect.KindOf].
  destruct t as [n k | e | n fs]; cbn [reflect.kindOfType hasType]; intros H.
  - destruct k, d; try done; simpl; eauto.
  - destruct d; try done. simpl. eauto.
  - eauto.
Qed.

Section Returns.

Variable methods : type -> option Merger.
Variable NewElem : type -> Value.

Lemma fieldLoop_returns body T fl (fs : list (reflect.StructField type)) (ds : list data) :
  length ds = length fs ->
  (forall i cur x,
     (i < length fs)%nat -> length cur = length fs -> cur !! i = Some x -> ds !! i = Some x ->
     exists x',
       body i (reflect.Val T (reflect.DStruct cur) fl)
       = Ret (reflect.Val T (reflect.DStruct (<[i := x']> cur)) fl) None) ->
  forall m i cur,
    (i + m = length fs)%nat ->
    length cur = length fs ->
    (forall j, (i <= j)%nat -> cur !! j = ds !! j) ->
    exists cur',
      fieldLoop body m i (reflect.Val T (reflect.DStruct cur) fl)
      = Ret (reflect.Val T (reflect.DStruct cur') fl) None.
Proof.
  intros Hds Hbody. induction m as [| m IH]; intros i cur Him Hlen Hcur.
  - by exists cur.
  - destruct (lookup_lt_is_Some_2 ds i) as [x Hx]; [lia |].
    destruct (Hbody i cur x) as [x' Hb]; [lia | done | by rewrite Hcur | done |].
    cbn [fieldLoop]. rewrite Hb.
    apply IH; [lia | by rewrite length_insert |].
    intros j Hj. rewrite list_lookup_insert_ne by lia. apply Hcur. lia.
Qed.

(** A merge of well-typed records of a struct type in which no type has a
    [Merge] method returns nil, under every configuration. *)
Lemma mergeValues_returns fuel : forall T d s flp fls cfg prefix,
  (depth T < fuel)%nat ->
  reflect.kindOfType T = reflect.Struct ->
  hasType T d = true -> hasType T s = true ->
  mergerFree methods T = true ->
  reflect.flagRO fls = false ->
  exists d',
    mergeValues methods NewElem fuel
      (reflect.Val (reflect.TPtr T) (reflect.DPtr (Some d)) flp) (reflect.Val T s fls)
      cfg prefix
    = Ret (reflect.Val (reflect.TPtr T) (reflect.DPtr (Some d')) flp) None.
Proof.
  induction fuel as [| fuel IH]; intros T d s flp fls cfg prefix Hfuel HT Hd Hs HM Hsro;
    [lia |].
  destruct (hasType_struct_inv _ _ HT Hd) as (n & fs & ds & -> & -> & Hds).
  destruct s as [| | | | | | | | | | | | ss]; try done.
  rewrite hasType_struct in Hs. rename Hs into Hss.
  rewrite mergerFree_struct in HM. apply andb_true_iff in HM as [HM HMfs].
  apply bool_decide_eq_true in HM.
  rewrite mergeValues_valid by done.
  rewrite addrImplements_elemOf, HM.
  rewrite (bool_decide_eq_false_2 (is_Some None)) by (by intros [? ?]).
  destruct (_ && _) eqn:Htime.
  { apply andb_true_iff in Htime as [Hci _]. unfold elemOf in *. simpl in Hci.
    apply negb_true_iff in Hci.
    cbn [reflect.SetValue reflect.CanSet reflect.flagAddr reflect.flagRO].
    rewrite Hci, Hsro, type_eqb_refl. simpl. by eexists. }
  pose proof (hasTypeFields_length _ _ Hds) as Hlds.
  pose proof (hasTypeFields_length _ _ Hss) as Hlss.
  unfold elemOf. cbn [reflect.NumField].
  destruct (fieldLoop_returns
              (mergeField methods (fun d s p => mergeValues methods NewElem fuel d s cfg p)
                 cfg prefix (makeSet (Include cfg)) (makeSet (Exclude cfg))
                 (reflect.Val (reflect.TStruct n fs) (reflect.DStruct ss) fls))
              (reflect.TStruct n fs) (reflect.mkFlag (reflect.flagRO flp) true)
              fs ds Hlds) with (m := length fs) (i := 0%nat) (cur := ds) as [cur' Hloop];
    [| lia | done | done | rewrite Hloop; simpl; by eexists].
  intros i cur x Hi Hlen Hci Hx.
  destruct (lookup_lt_is_Some_2 fs i Hi) as [f Hf].
  destruct (hasTypeFields_lookup _ _ _ _ Hds Hf) as (x' & Hx' & Htx).
  destruct (hasTypeFields_lookup _ _ _ _ Hss Hf) as (y & Hy & Hty). simplify_eq.
  pose proof (mergerFreeFields_lookup _ _ _ _ HMfs Hf) as HMf.
  pose proof (mergerFree_None _ _ HMf) as HMp.
  unfold mergeField. cbn [reflect.TypeField]. rewrite Hf.
  destruct (bool_decide (0 < length (Include cfg)) && _); [exists x; by rewrite list_insert_id |].
  destruct (index _ _); [exists x; by rewrite list_insert_id |].
  rewrite (Field_struct _ _ _ _ _ _ _ Hf Hci), (Field_struct _ _ _ _ _ _ _ Hf Hy).
  unfold addrImplements.
  cbn [reflect.CanAddr reflect.Addr reflect.flagAddr reflect.flagRO reflect.CanSet
       reflect.KindOf].
  rewrite HMp, Hsro. rewrite (bool_decide_eq_false_2 (is_Some None)) by (by intros [? ?]).
  cbn [andb]. destruct (negb _) eqn:Hset; [exists x; by rewrite list_insert_id |].
  apply negb_false_iff in Hset.
  destruct (reflect.Exported f) eqn:Hex; [| by rewrite orb_true_r in Hset].
  rewrite orb_false_r in Hset. apply negb_true_iff in Hset. rewrite Hset.
  cbn [orb negb].
  case_bool_decide as Hk.
  - destruct (IH (reflect.Typ f) x y (reflect.mkFlag false false)
                (reflect.mkFlag false (reflect.flagAddr fls)) cfg
                ((prefix +:+ reflect.Name f) +:+ ".")) as [x' Hrec]; try done.
    { apply (depth_field n) in Hf. simpl in *. lia. }
    rewrite Hrec. simpl. by eexists.
  - destruct (isEmpty_total _ _ Htx) as [bx Hbx].
    destruct (isEmpty_total _ _ Hty) as [by' Hby].
    rewrite !isZero_isEmpty, Hbx, Hby.
    cbn [reflect.SetValue reflect.CanSet reflect.flagAddr reflect.flagRO negb andb].
    rewrite type_eqb_refl. cbn [andb].
    repeat case_bool_decide; simpl; destruct bx, by'; simpl;
      first [ by (exists x; rewrite list_insert_id) | by eexists ].
Qed.

Lemma Merge_returns T d s cfg :
  reflect.kindOfType T = reflect.Struct ->
  hasType T d = true -> hasType T s = true ->
  mergerFree methods T = true ->
  exists d',
    Merge methods NewElem (pointerArg T d) (structArg T s) cfg
    = Ret (reflect.ValueOf (pointerArg T d')) None.
Proof.
  intros HT Hd Hs HM. unfold Merge, pointerArg, structArg, fuelFor.
  cbn [reflect.ValueOf]. apply mergeValues_returns; try done. simpl. lia.
Qed.

End Returns.

(** ** From a call that returns to [Merge] on well-typed records *)

Section Total.

Variable methods : type -> option Merger.
Variable NewElem : type -> Value.

(** What holds of the destination after every top-level call that returns
    holds after [Merge], which returns. *)
Lemma mergeLeaves_intro n fs ds ss cfg k v :
  let T := reflect.TStruct n fs in
  hasType T (reflect.DStruct ds) = true ->
  hasType T (reflect.DStruct ss) = true ->
  mergerFree methods T = true ->
  (forall dst',
     mergeValues methods NewElem (S (depth T))
       (reflect.Val (reflect.TPtr T) (reflect.DPtr (Some (reflect.DStruct ds)))
          (reflect.mkFlag false false))
       (reflect.Val T (reflect.DStruct ss) (reflect.mkFlag false false)) cfg ""
     = Ret dst' None ->
     pointee dst' ≫= (fun x => fieldOf x k) = Some v) ->
  mergeLeaves methods NewElem T (reflect.DStruct ds) (reflect.DStruct ss) cfg k v.
Proof.
  intros T Hd Hs HM Hprop.
  destruct (Merge_returns methods NewElem T _ _ [cfg] eq_refl Hd Hs HM) as [d' H].
  exists d'. split; [done |]. by apply Hprop in H.
Qed.

(** Under [ExcludeEmpty], a processed leaf of any kind but [Uintptr]. *)
Lemma ExcludeEmpty_leaf fuel n fs ds flp ss fls cfg prefix dst' err k f d s :
  let T := reflect.TStruct n fs in
  T <> time_Time ->
  methods (reflect.TPtr T) = None ->
  mergeValues methods NewElem fuel
    (reflect.Val (reflect.TPtr T) (reflect.DPtr (Some (reflect.DStruct ds))) flp)
    (reflect.Val T (reflect.DStruct ss) fls) cfg prefix
  = Ret dst' err ->
  Option cfg = ExcludeEmpty ->
  fs !! k = Some f -> ds !! k = Some d -> ss !! k = Some s ->
  reflect.kindOfType (reflect.Typ f) <> reflect.Struct ->
  reflect.Exported f = true ->
  reflect.flagRO flp = false ->
  methods (reflect.TPtr (reflect.Typ f)) = None ->
  passesFilters cfg (prefix +:+ reflect.Name f) ->
  reflect.kindOfType (reflect.Typ f) <> reflect.Uintptr ->
  pointee dst' ≫= (fun x => fieldOf x k)
  = Some (if emptyPerSpec (reflect.kindOfType (reflect.Typ f)) s then d else s).
Proof.
  intros T HT HM H Hopt Hf Hd Hs Hkind Hex Hro HMf Hpass Hptr.
  destruct (leaf_field _ _ _ _ _ _ _ _ _ _ _ _ _ _ _ _ _ HT HM H Hf Hd Hs Hkind Hex Hro HMf Hpass)
    as (set & Hset & Hres).
  unfold shouldSet in Hset. rewrite Hopt in Hset.
  rewrite bool_decide_eq_true_2 in Hset by done.
  destruct (isEmpty (reflect.Typ f) s) as [empty |] eqn:Hempty; simpl in Hset; simplify_eq.
  apply isEmpty_emptyPerSpec in Hempty as <-; [| done].
  rewrite Hres, Hopt.
  rewrite (bool_decide_eq_false_2 (ExcludeEmpty = IncludeAll)) by done.
  rewrite orb_false_r. by destruct empty.
Qed.

(** Under [OverwriteEmpty], a processed leaf. *)
Lemma OverwriteEmpty_leaf fuel n fs ds flp ss fls cfg prefix dst' err k f d s :
  let T := reflect.TStruct n fs in
  T <> time_Time ->
  methods (reflect.TPtr T) = None ->
  mergeValues methods NewElem fuel
    (reflect.Val (reflect.TPtr T) (reflect.DPtr (Some (reflect.DStruct ds))) flp)
    (reflect.Val T (reflect.DStruct ss) fls) cfg prefix
  = Ret dst' err ->
  Option cfg = OverwriteEmpty ->
  fs !! k = Some f -> ds !! k = Some d -> ss !! k = Some s ->
  reflect.kindOfType (reflect.Typ f) <> reflect.Struct ->
  reflect.Exported f = true ->
  reflect.flagRO flp = false ->
  methods (reflect.TPtr (reflect.Typ f)) = None ->
  passesFilters cfg (prefix +:+ reflect.Name f) ->
  exists empty,
    isEmpty (reflect.Typ f) d = Some empty /\
    pointee dst' ≫= (fun x => fieldOf x k) = Some (if empty then s else d).
Proof.
  intros T HT HM H Hopt Hf Hd Hs Hkind Hex Hro HMf Hpass.
  destruct (leaf_field _ _ _ _ _ _ _ _ _ _ _ _ _ _ _ _ _ HT HM H Hf Hd Hs Hkind Hex Hro HMf Hpass)
    as (set & Hset & Hres).
  unfold shouldSet in Hset. rewrite Hopt in Hset.
  rewrite (bool_decide_eq_false_2 (OverwriteEmpty = ExcludeEmpty)) in Hset by done.
  rewrite bool_decide_eq_true_2 in Hset by done.
  exists set. split; [done |]. rewrite Hres, Hopt.
  rewrite (bool_decide_eq_false_2 (OverwriteEmpty = IncludeAll)) by done.
  by rewrite orb_false_r.
Qed.

(** The types of the fields of a record without [Merge] methods have none. *)
Lemma mergerFree_field n fs k f :
  mergerFree methods (reflect.TStruct n fs) = true ->
  fs !! k = Some f ->
  methods (reflect.TPtr (reflect.TStruct n fs)) = None /\
  methods (reflect.TPtr (reflect.Typ f)) = None.
Proof.
  intros HM Hf. split; [by apply mergerFree_None |].
  rewrite mergerFree_struct in HM. apply andb_true_iff in HM as [_ HMfs].
  by eapply mergerFree_None, mergerFreeFields_lookup.
Qed.

Lemma hasType_field n fs ds k f d :
  hasType (reflect.TStruct n fs) (reflect.DStruct ds) = true ->
  fs !! k = Some f -> ds !! k = Some d ->
  hasType (reflect.Typ f) d = true.
Proof.
  rewrite hasType_struct. intros Hds Hf Hd.
  destruct (hasTypeFields_lookup _ _ _ _ Hds Hf) as (x & Hx & Htx). by simplify_eq.
Qed.

End Total.

(** * The properties of the specification *)

(** C1, as stated, fails in two ways.  A [time.Time] destination is
    replaced as a whole, so its unexported fields do not keep the
    destination's values; and an exported field whose pointer type has a
    [Merge] method holds what the method leaves, here the destination's 7
    and not the source's 3, although [Merge] returns nil. *)
Lemma IncludeAll_not_source_except_private :
  (Merge Fixtures.noMethods Fixtures.anyNew
     (pointerArg time_Time someTime) (structArg time_Time zeroTime) []
   = Ret (reflect.ValueOf (pointerArg time_Time zeroTime)) None
   /\ zeroTime <> sourceExceptPrivate time_Time someTime zeroTime)
  /\ (Merge VersionFixture.methods Fixtures.anyNew
        (pointerArg VersionFixture.Release (VersionFixture.release "v7" 7))
        (structArg VersionFixture.Release (VersionFixture.release "v3" 3)) []
      = Ret (reflect.ValueOf
               (pointerArg VersionFixture.Release (VersionFixture.release "v3" 7))) None
      /\ VersionFixture.release "v3" 7
         <> sourceExceptPrivate VersionFixture.Release
              (VersionFixture.release "v7" 7) (VersionFixture.release "v3" 3)).
Proof.
  split; (split; [by vm_compute | vm_compute; discriminate]).
Qed.

(** C1, amended.  (1) For well-typed records of one struct type in which
    no type has a [Merge] method, [Merge] with the default configuration
    returns nil and leaves [overlay]: the source field for field through
    the nested structs, an unexported field keeping the destination's
    value, except that a [time.Time] is the source's as a whole.  (2) Where
    no [time.Time] occurs this is the source except the unexported fields.
    (3) In a record that is walked, an unexported field keeps the
    destination's value under every configuration, for every call that
    returns; (4) and [Merge] on such well-typed records returns. *)
Theorem IncludeAll_overlays_source methods NewElem :
  (forall T d s,
     reflect.kindOfType T = reflect.Struct ->
     hasType T d = true -> hasType T s = true ->
     mergerFree methods T = true ->
     Merge methods NewElem (pointerArg T d) (structArg T s) []
     = Ret (reflect.ValueOf (pointerArg T (overlay T d s))) None)
  /\ (forall T d s, timeFree T = true -> overlay T d s = sourceExceptPrivate T d s)
  /\ (forall fuel n fs d0 flp s0 fls cfg prefix dst' err k f d,
        let T := reflect.TStruct n fs in
        T <> time_Time ->
        methods (reflect.TPtr T) = None ->
        mergeValues methods NewElem fuel
          (reflect.Val (reflect.TPtr T) (reflect.DPtr (Some d0)) flp)
          (reflect.Val T s0 fls) cfg prefix
        = Ret dst' err ->
        fs !! k = Some f -> fieldOf d0 k = Some d ->
        reflect.Exported f = false ->
        pointee dst' ≫= (fun x => fieldOf x k) = Some d)
  /\ (forall n fs ds ss cfg k f d,
        let T := reflect.TStruct n fs in
        T <> time_Time ->
        hasType T (reflect.DStruct ds) = true ->
        hasType T (reflect.DStruct ss) = true ->
        mergerFree methods T = true ->
        fs !! k = Some f -> ds !! k = Some d ->
        reflect.Exported f = false ->
        mergeLeaves methods NewElem T (reflect.DStruct ds) (reflect.DStruct ss) cfg k d).
Proof.
  split; [| split; [| split]].
  - intros T d s HT Hd Hs HM. unfold Merge, pointerArg, structArg, fuelFor.
    cbn [reflect.ValueOf]. apply mergeValues_overlay; try done. simpl. lia.
  - intros T d s Ht. by apply overlay_timeFree.
  - intros. by eapply private_field.
  - intros n fs ds ss cfg k f d T HT Hd Hs HM Hf Hk Hex.
    apply mergeLeaves_intro; try done. intros dst' H.
    destruct (mergerFree_field _ _ _ _ _ HM Hf) as [HMT _].
    by eapply (private_field methods NewElem) in H.
Qed.

(** C2.  Under [ExcludeEmpty], a processed leaf field (not a struct,
    settable, passing the filters, without a [Merge] method) of any kind
    but [Uintptr] keeps the destination's value when the source's is empty
    in the words of the specification, and takes the source's value
    otherwise: (1) for every call that returns, at any depth; (2) and
    [Merge] on well-typed records without [Merge] methods returns, with
    that field.  For a [uintptr] field the code departs from this: [isZero]
    has no case for [reflect.Uintptr], so (3) the source value 0, empty in
    the words of the specification, (4) replaces the destination's 5. *)
Theorem ExcludeEmpty_keeps_destination :
  (forall methods NewElem fuel n fs ds flp ss fls cfg prefix dst' err k f d s,
     let T := reflect.TStruct n fs in
     T <> time_Time ->
     methods (reflect.TPtr T) = None ->
     mergeValues methods NewElem fuel
       (reflect.Val (reflect.TPtr T) (reflect.DPtr (Some (reflect.DStruct ds))) flp)
       (reflect.Val T (reflect.DStruct ss) fls) cfg prefix
     = Ret dst' err ->
     Option cfg = ExcludeEmpty ->
     fs !! k = Some f -> ds !! k = Some d -> ss !! k = Some s ->
     reflect.kindOfType (reflect.Typ f) <> reflect.Struct ->
     reflect.Exported f = true ->
     reflect.flagRO flp = false ->
     methods (reflect.TPtr (reflect.Typ f)) = None ->
     passesFilters cfg (prefix +:+ reflect.Name f) ->
     reflect.kindOfType (reflect.Typ f) <> reflect.Uintptr ->
     pointee dst' ≫= (fun x => fieldOf x k)
     = Some (if emptyPerSpec (reflect.kindOfType (reflect.Typ f)) s then d else s))
  /\ (forall methods NewElem n fs ds ss cfg k f d s,
        let T := reflect.TStruct n fs in
        T <> time_Time ->
        hasType T (reflect.DStruct ds) = true ->
        hasType T (reflect.DStruct ss) = true ->
        mergerFree methods T = true ->
        Option cfg = ExcludeEmpty ->
        fs !! k = Some f -> ds !! k = Some d -> ss !! k = Some s ->
        reflect.kindOfType (reflect.Typ f) <> reflect.Struct ->
        reflect.Exported f = true ->
        passesFilters cfg (reflect.Name f) ->
        reflect.kindOfType (reflect.Typ f) <> reflect.Uintptr ->
        mergeLeaves methods NewElem T (reflect.DStruct ds) (reflect.DStruct ss) cfg k
          (if emptyPerSpec (reflect.kindOfType (reflect.Typ f)) s then d else s))
  /\ emptyPerSpec reflect.Uintptr (reflect.DUint 0) = true
  /\ Merge Fixtures.noMethods Fixtures.anyNew
       (pointerArg Resource (reflect.DStruct [reflect.DUint 5]))
       (structArg Resource (reflect.DStruct [reflect.DUint 0]))
       [mkConfig ExcludeEmpty [] []]
     = Ret (reflect.ValueOf (pointerArg Resource (reflect.DStruct [reflect.DUint 0]))) None.
Proof.
  split; [| split; [| split; [done | by vm_compute]]].
  - intros. by eapply ExcludeEmpty_leaf.
  - intros methods NewElem n fs ds ss cfg k f d s T HT Hd Hs HM Hopt Hf Hk Hsk
      Hkind Hex Hpass Hptr.
    apply mergeLeaves_intro; try done. intros dst' H.
    destruct (mergerFree_field _ _ _ _ _ HM Hf) as [HMT HMf].
    by eapply (ExcludeEmpty_leaf methods NewElem) in H.
Qed.

(** C3.  Under [OverwriteEmpty], a processed leaf field (not a struct,
    settable, passing the filters, without a [Merge] method) of any kind
    but [Uintptr] keeps the destination's value when that value is not
    empty in the words of the specification, whatever the source holds, and
    takes the source's value, whatever that is, when the destination's is
    empty: (1) for every call that returns, at any depth; (2) and [Merge]
    on well-typed records without [Merge] methods returns, with that field.
    For a [uintptr] field the code departs from this: [isZero] has no case
    for [reflect.Uintptr], so (3) the destination value 0, empty in the
    words of the specification, (4) is kept and the source's 5 is lost. *)
Theorem OverwriteEmpty_fills_gaps :
  (forall methods NewElem fuel n fs ds flp ss fls cfg prefix dst' err k f d s,
     let T := reflect.TStruct n fs in
     T <> time_Time ->
     methods (reflect.TPtr T) = None ->
     mergeValues methods NewElem fuel
       (reflect.Val (reflect.TPtr T) (reflect.DPtr (Some (reflect.DStruct ds))) flp)
       (reflect.Val T (reflect.DStruct ss) fls) cfg prefix
     = Ret dst' err ->
     Option cfg = OverwriteEmpty ->
     fs !! k = Some f -> ds !! k = Some d -> ss !! k = Some s ->
     reflect.kindOfType (reflect.Typ f) <> reflect.Struct ->
     reflect.Exported f = true ->
     reflect.flagRO flp = false ->
     methods (reflect.TPtr (reflect.Typ f)) = None ->
     passesFilters cfg (prefix +:+ reflect.Name f) ->
     reflect.kindOfType (reflect.Typ f) <> reflect.Uintptr ->
     pointee dst' ≫= (fun x => fieldOf x k)
     = Some (if emptyPerSpec (reflect.kindOfType (reflect.Typ f)) d then s else d))
  /\ (forall methods NewElem n fs ds ss cfg k f d s,
        let T := reflect.TStruct n fs in
        T <> time_Time ->
        hasType T (reflect.DStruct ds) = true ->
        hasType T (reflect.DStruct ss) = true ->
        mergerFree methods T = true ->
        Option cfg = OverwriteEmpty ->
        fs !! k = Some f -> ds !! k = Some d -> ss !! k = Some s ->
        reflect.kindOfType (reflect.Typ f) <> reflect.Struct ->
        reflect.Exported f = true ->
        passesFilters cfg (reflect.Name f) ->
        reflect.kindOfType (reflect.Typ f) <> reflect.Uintptr ->
        mergeLeaves methods NewElem T (reflect.DStruct ds) (reflect.DStruct ss) cfg k
          (if emptyPerSpec (reflect.kindOfType (reflect.Typ f)) d then s else d))
  /\ emptyPerSpec reflect.Uintptr (reflect.DUint 0) = true
  /\ Merge Fixtures.noMethods Fixtures.anyNew
       (pointerArg Resource (reflect.DStruct [reflect.DUint 0]))
       (structArg Resource (reflect.DStruct [reflect.DUint 5]))
       [mkConfig OverwriteEmpty [] []]
     = Ret (reflect.ValueOf (pointerArg Resource (reflect.DStruct [reflect.DUint 0]))) None.
Proof.
  assert (Hleaf : forall methods NewElem fuel n fs ds flp ss fls cfg prefix dst' err k f d s,
     reflect.TStruct n fs <> time_Time ->
     methods (reflect.TPtr (reflect.TStruct n fs)) = None ->
     mergeValues methods NewElem fuel
       (reflect.Val (reflect.TPtr (reflect.TStruct n fs))
          (reflect.DPtr (Some (reflect.DStruct ds))) flp)
       (reflect.Val (reflect.TStruct n fs) (reflect.DStruct ss) fls) cfg prefix
     = Ret dst' err ->
     Option cfg = OverwriteEmpty ->
     fs !! k = Some f -> ds !! k = Some d -> ss !! k = Some s ->
     reflect.kindOfType (reflect.Typ f) <> reflect.Struct ->
     reflect.Exported f = true ->
     reflect.flagRO flp = false ->
     methods (reflect.TPtr (reflect.Typ f)) = None ->
     passesFilters cfg (prefix +:+ reflect.Name f) ->
     reflect.kindOfType (reflect.Typ f) <> reflect.Uintptr ->
     pointee dst' ≫= (fun x => fieldOf x k)
     = Some (if emptyPerSpec (reflect.kindOfType (reflect.Typ f)) d then s else d)).
  { intros methods NewElem fuel n fs ds flp ss fls cfg prefix dst' err k f d s
      HT HM H Hopt Hf Hd Hs Hkind Hex Hro HMf Hpass Hptr.
    destruct (OverwriteEmpty_leaf methods NewElem _ _ _ _ _ _ _ _ _ _ _ _ _ _ _
                HT HM H Hopt Hf Hd Hs Hkind Hex Hro HMf Hpass) as (empty & He & Hres).
    apply isEmpty_emptyPerSpec in He as <-; done. }
  split; [exact Hleaf |].
  split; [| split; [done | by vm_compute]].
  intros methods NewElem n fs ds ss cfg k f d s T HT Hd Hs HM Hopt Hf Hk Hsk
    Hkind Hex Hpass Hptr.
  apply mergeLeaves_intro; try done. intros dst' H.
  destruct (mergerFree_field _ _ _ _ _ HM Hf) as [HMT HMf].
  by eapply Hleaf in H.
Qed.

(** C4, as stated, fails where the loop over the fields is not reached.
    A [time.Time] destination is replaced as a whole although the include
    list admits none of its fields; and with include = ["Address.Street"]
    and a [Merge] method on [*Address], the field Address passes the
    filter and is handed to the method, which replaces City and Country
    too, although their paths are not included. *)
Lemma include_filter_not_inside_time_or_Merger :
  (Merge Fixtures.noMethods Fixtures.anyNew
     (pointerArg time_Time someTime) (structArg time_Time zeroTime)
     [mkConfig IncludeAll ["Name"] []]
   = Ret (reflect.ValueOf (pointerArg time_Time zeroTime)) None
   /\ shouldInclude "wall" (makeSet ["Name"]) = false
   /\ shouldInclude "ext" (makeSet ["Name"]) = false
   /\ shouldInclude "loc" (makeSet ["Name"]) = false)
  /\ (Merge AddressFixture.methods Fixtures.anyNew
        (pointerArg Fixtures.TestStruct Sample.alice)
        (structArg Fixtures.TestStruct Sample.bob)
        [mkConfig IncludeAll ["Address.Street"] []]
      = Ret (reflect.ValueOf
               (pointerArg Fixtures.TestStruct
                  (Fixtures.testStruct "Alice" 30
                     (Fixtures.address "456 New St" "New City" "New Country")
                     false 10 "old")))
            None
      /\ shouldInclude "Address.City" (makeSet ["Address.Street"]) = false
      /\ shouldInclude "Address.Country" (makeSet ["Address.Street"]) = false).
Proof.
  split; [split; [by vm_compute | by vm_compute] |].
  split; [by vm_compute | by vm_compute].
Qed.

(** C4, amended.  The include filter is applied in the loop over the
    fields, so in a record that is walked: not a [time.Time], and with no
    [Merge] method on its pointer type.  (1) [shouldInclude] holds exactly
    when the qualified path is in the include list, or contains no "." and
    is a prefix, as a string, of some entry of the list.  (2) The path of a
    field below the top level contains a ".", so the prefix rule is for
    top-level fields only.  (3) With a non-empty include list, a field of a
    walked record for which [shouldInclude] fails keeps the destination's
    value, for every call that returns; (4) and [Merge] on well-typed
    records without [Merge] methods returns, with that field.  (5) With
    include = ["Address.Street"] and no [Merge] methods, the field Address
    is entered, Street is merged, City, Country and the other top-level
    fields keep the destination's values. *)
Theorem include_filter :
  (forall name include,
     shouldInclude name (makeSet include) = true <->
     name ∈ include \/
     (Contains name "." = false /\
      exists key, key ∈ include /\ HasPrefix key name = true))
  /\ (forall p name, Contains ((p +:+ ".") +:+ name) "." = true)
  /\ (forall methods NewElem fuel n fs d0 flp s0 fls cfg prefix dst' err k f d,
        let T := reflect.TStruct n fs in
        T <> time_Time ->
        methods (reflect.TPtr T) = None ->
        mergeValues methods NewElem fuel
          (reflect.Val (reflect.TPtr T) (reflect.DPtr (Some d0)) flp)
          (reflect.Val T s0 fls) cfg prefix
        = Ret dst' err ->
        fs !! k = Some f ->
        fieldOf d0 k = Some d ->
        Include cfg <> [] ->
        shouldInclude (prefix +:+ reflect.Name f) (makeSet (Include cfg)) = false ->
        pointee dst' ≫= (fun x => fieldOf x k) = Some d)
  /\ (forall methods NewElem n fs ds ss cfg k f d,
        let T := reflect.TStruct n fs in
        T <> time_Time ->
        hasType T (reflect.DStruct ds) = true ->
        hasType T (reflect.DStruct ss) = true ->
        mergerFree methods T = true ->
        fs !! k = Some f -> ds !! k = Some d ->
        Include cfg <> [] ->
        shouldInclude (reflect.Name f) (makeSet (Include cfg)) = false ->
        mergeLeaves methods NewElem T (reflect.DStruct ds) (reflect.DStruct ss) cfg k d)
  /\ (forall name age street city country active count hidden
             name' age' street' city' country' active' count' hidden',
        Merge Fixtures.noMethods Fixtures.anyNew
          (pointerArg Fixtures.TestStruct
             (Fixtures.testStruct name age (Fixtures.address street city country)
                active count hidden))
          (structArg Fixtures.TestStruct
             (Fixtures.testStruct name' age' (Fixtures.address street' city' country')
                active' count' hidden'))
          [mkConfig IncludeAll ["Address.Street"] []]
        = Ret (reflect.ValueOf
                 (pointerArg Fixtures.TestStruct
                    (Fixtures.testStruct name age (Fixtures.address street' city country)
                       active count hidden)))
              None).
Proof.
  split; [exact shouldInclude_spec |].
  split; [exact Contains_nested |].
  split; [intros; by eapply unincluded_field |].
  split.
  - intros methods NewElem n fs ds ss cfg k f d T HT Hd Hs HM Hf Hk Hinc Hsi.
    apply mergeLeaves_intro; try done. intros dst' H.
    destruct (mergerFree_field _ _ _ _ _ HM Hf) as [HMT _].
    by eapply (unincluded_field methods NewElem) in H.
  - intros. vm_compute. reflexivity.
Qed.

(** C5, as stated, fails where the loop over the fields is not reached.
    With exclude = ["Address.City"] and a [Merge] method on [*Address],
    the field Address is handed to the method, which replaces City; the
    [Merge] method of a whole record, here the [Date] of the tests, and
    the copy of a [time.Time] do not look at the exclude list at all. *)
Lemma excluded_field_changed_by_Merger_or_time :
  (Merge AddressFixture.methods Fixtures.anyNew
     (pointerArg Fixtures.TestStruct Sample.alice)
     (structArg Fixtures.TestStruct Sample.bob)
     [mkConfig IncludeAll [] ["Address.City"]]
   = Ret (reflect.ValueOf
            (pointerArg Fixtures.TestStruct
               (Fixtures.testStruct "Bob" 25
                  (Fixtures.address "456 New St" "New City" "New Country")
                  true 5 "old")))
         None
   /\ index (makeSet ["Address.City"]) "Address.City" = true)
  /\ Merge DateFixture.methods Fixtures.anyNew
       (pointerArg DateFixture.Date someTime) (structArg DateFixture.Date zeroTime)
       [mkConfig IncludeAll [] ["wall"; "ext"; "loc"]]
     = Ret (reflect.ValueOf (pointerArg DateFixture.Date zeroTime)) None
  /\ Merge Fixtures.noMethods Fixtures.anyNew
       (pointerArg time_Time someTime) (structArg time_Time zeroTime)
       [mkConfig IncludeAll [] ["wall"; "ext"; "loc"]]
     = Ret (reflect.ValueOf (pointerArg time_Time zeroTime)) None.
Proof.
  split; [split; [by vm_compute | by vm_compute] |].
  split; [by vm_compute | by vm_compute].
Qed.

(** C5, amended.  In a record that is walked field by field (not a
    [time.Time], and with no [Merge] method on its pointer type), a field
    whose qualified path is in the exclude list keeps the destination's
    value, whatever the policy, the include list, the kind of the field and
    the methods of its type: (1) for every call that returns, at any depth,
    which then returns nil; (2) and [Merge] on well-typed records without
    [Merge] methods returns, with that field. *)
Theorem excluded_field_unchanged methods NewElem :
  (forall fuel n fs d0 flp s0 fls cfg prefix dst' err k f d,
     let T := reflect.TStruct n fs in
     T <> time_Time ->
     methods (reflect.TPtr T) = None ->
     mergeValues methods NewElem fuel
       (reflect.Val (reflect.TPtr T) (reflect.DPtr (Some d0)) flp)
       (reflect.Val T s0 fls) cfg prefix
     = Ret dst' err ->
     fs !! k = Some f ->
     fieldOf d0 k = Some d ->
     prefix +:+ reflect.Name f ∈ Exclude cfg ->
     pointee dst' ≫= (fun x => fieldOf x k) = Some d /\ err = None)
  /\ (forall n fs ds ss cfg k f d,
        let T := reflect.TStruct n fs in
        T <> time_Time ->
        hasType T (reflect.DStruct ds) = true ->
        hasType T (reflect.DStruct ss) = true ->
        mergerFree methods T = true ->
        fs !! k = Some f -> ds !! k = Some d ->
        reflect.Name f ∈ Exclude cfg ->
        mergeLeaves methods NewElem T (reflect.DStruct ds) (reflect.DStruct ss) cfg k d).
Proof.
  split.
  - intros fuel n fs d0 flp s0 fls cfg prefix dst' err k f d T HT HM H Hf Hd Hex.
    split; [by eapply excluded_field | by eapply mergeValues_no_error in H].
  - intros n fs ds ss cfg k f d T HT Hd Hs HM Hf Hk Hex.
    apply mergeLeaves_intro; try done. intros dst' H.
    destruct (mergerFree_field _ _ _ _ _ HM Hf) as [HMT _].
    by eapply (excluded_field methods NewElem) in H.
Qed.

(** C6.  The checks of [Merge], in order: a destination that is not a
    pointer whose referent is a struct gives [ErrInvalidDestination];
    otherwise a source that is not a struct gives [ErrInvalidSource];
    otherwise a source of another type gives [ErrTypeMismatch]; otherwise
    the checks pass, and an error that [Merge] then returns is the one the
    [Merge] method of the record type returned: the three are the only
    errors of the merge itself.  The destination is left as it was when a
    check fails. *)
Theorem Merge_validation_order methods NewElem dst src cfg :
  (~ pointsToStruct dst ->
   Merge methods NewElem dst src cfg
   = Ret (reflect.ValueOf dst) (Some ErrInvalidDestination))
  /\ (pointsToStruct dst -> ~ isStruct src ->
      Merge methods NewElem dst src cfg
      = Ret (reflect.ValueOf dst) (Some ErrInvalidSource))
  /\ (forall T d T' s,
        dst = pointerArg T d -> reflect.kindOfType T = reflect.Struct ->
        src = structArg T' s -> reflect.kindOfType T' = reflect.Struct ->
        T <> T' ->
        Merge methods NewElem dst src cfg
        = Ret (reflect.ValueOf dst) (Some ErrTypeMismatch))
  /\ (forall T d s dst' e,
        dst = pointerArg T d -> reflect.kindOfType T = reflect.Struct ->
        src = structArg T s ->
        Merge methods NewElem dst src cfg = Ret dst' (Some e) ->
        exists merger x,
          methods (reflect.TPtr T) = Some merger /\
          merger d (reflect.ValueOf src) = Some (x, Some e)).
Proof.
  split; [| split; [| split]].
  - intros Hd. unfold Merge. destruct dst as [[t d] |]; simpl.
    + apply mergeValues_invalid_destination.
      intros H. apply Hd. by apply pointsToStruct_Elem.
    + done.
  - intros (T & d & -> & HT) Hs. unfold Merge. simpl.
    apply mergeValues_invalid_source; [done |].
    intros H. apply Hs. by apply isStruct_Kind.
  - intros T d T' s -> HT -> HT' Hne. unfold Merge. simpl.
    by apply mergeValues_type_mismatch.
  - intros T d s dst' e -> HT -> H. unfold Merge in H. simpl in H.
    destruct (methods (reflect.TPtr T)) as [merger |] eqn:HM.
    2:{ by apply mergeValues_no_error in H. }
    rewrite mergeValues_valid in H by done.
    destruct (_ && _) in H.
    { by destruct (reflect.SetValue _ _); simplify_eq. }
    rewrite addrImplements_elemOf, HM in H.
    rewrite bool_decide_eq_true_2 in H by eauto.
    unfold callMerger in H. simpl in H. rewrite HM in H. simpl in H.
    destruct (merger d _) as [[x e'] |] eqn:Hm; simpl in H; simplify_eq.
    by exists merger, x.
Qed.


(** C8.  A nil pointer to a struct does not pass the first check: [Merge]
    returns [ErrInvalidDestination] and the pointer stays nil.  (The
    branch of [mergeValues] that would allocate the struct comes after the
    check on [dst.Elem().Kind()], which a nil pointer fails.) *)
Theorem nil_destination_invalid methods NewElem T src cfg :
  Merge methods NewElem (Some (reflect.TPtr T, reflect.DPtr None)) src cfg
  = Ret (reflect.ValueOf (Some (reflect.TPtr T, reflect.DPtr None)))
        (Some ErrInvalidDestination).
Proof.
  unfold Merge. simpl. apply mergeValues_invalid_destination.
  simpl. intros [_ H]. done.
Qed.

(** C9.  A merge whose record type is [time.Time] copies the source over
    the destination and returns nil, whatever the configuration and the
    path prefix: (1) at top level; (2) for any call of [mergeValues], such
    as the recursive one, on values that are not read-only; (3) hence a
    settable field of type [time.Time] that passes the filters of the
    enclosing record takes the source's value under every policy, for every
    call that returns; (4) and [Merge] on well-typed records without
    [Merge] methods returns, with that field; (5) under [ExcludeEmpty] the
    zero source time replaces a non-zero destination. *)
Theorem time_Time_copied_wholesale methods NewElem :
  (forall d s cfg,
     Merge methods NewElem (pointerArg time_Time d) (structArg time_Time s) cfg
     = Ret (reflect.ValueOf (pointerArg time_Time s)) None)
  /\ (forall fuel d s flp fls cfg prefix,
        reflect.flagRO flp = false ->
        reflect.flagRO fls = false ->
        mergeValues methods NewElem (S fuel)
          (reflect.Val (reflect.TPtr time_Time) (reflect.DPtr (Some d)) flp)
          (reflect.Val time_Time s fls) cfg prefix
        = Ret (reflect.Val (reflect.TPtr time_Time) (reflect.DPtr (Some s)) flp) None)
  /\ (forall fuel n fs ds flp ss fls cfg prefix dst' err k f d s,
        let T := reflect.TStruct n fs in
        T <> time_Time ->
        methods (reflect.TPtr T) = None ->
        mergeValues methods NewElem fuel
          (reflect.Val (reflect.TPtr T) (reflect.DPtr (Some (reflect.DStruct ds))) flp)
          (reflect.Val T (reflect.DStruct ss) fls) cfg prefix
        = Ret dst' err ->
        fs !! k = Some f -> ds !! k = Some d -> ss !! k = Some s ->
        reflect.Typ f = time_Time ->
        methods (reflect.TPtr time_Time) = None ->
        reflect.Exported f = true ->
        reflect.flagRO flp = false ->
        passesFilters cfg (prefix +:+ reflect.Name f) ->
        pointee dst' ≫= (fun x => fieldOf x k) = Some s)
  /\ (forall n fs ds ss cfg k f d s,
        let T := reflect.TStruct n fs in
        T <> time_Time ->
        hasType T (reflect.DStruct ds) = true ->
        hasType T (reflect.DStruct ss) = true ->
        mergerFree methods T = true ->
        fs !! k = Some f -> ds !! k = Some d -> ss !! k = Some s ->
        reflect.Typ f = time_Time ->
        reflect.Exported f = true ->
        passesFilters cfg (reflect.Name f) ->
        mergeLeaves methods NewElem T (reflect.DStruct ds) (reflect.DStruct ss) cfg k s)
  /\ Merge methods NewElem (pointerArg time_Time someTime) (structArg time_Time zeroTime)
       [mkConfig ExcludeEmpty [] []]
     = Ret (reflect.ValueOf (pointerArg time_Time zeroTime)) None.
Proof.
  assert (Htop : forall d s cfg,
     Merge methods NewElem (pointerArg time_Time d) (structArg time_Time s) cfg
     = Ret (reflect.ValueOf (pointerArg time_Time s)) None).
  { intros d s cfg. unfold Merge, pointerArg, structArg, fuelFor.
    cbn [reflect.ValueOf]. by apply mergeValues_time. }
  split; [exact Htop |].
  split; [intros; by apply mergeValues_time |].
  split; [intros; by eapply time_field |].
  split; [| apply Htop].
  intros n fs ds ss cfg k f d s T HT Hd Hs HM Hf Hk Hsk Htime Hex Hpass.
  apply mergeLeaves_intro; try done. intros dst' H.
  destruct (mergerFree_field _ _ _ _ _ HM Hf) as [HMT HMf]. rewrite Htime in HMf.
  by eapply (time_field methods NewElem) in H.
Qed.


(** ** The theorems at the values of the repository's tests *)

Ltac witness_side :=
  first [ reflexivity
        | discriminate
        | apply not_elem_of_nil
        | split; [by left | apply not_elem_of_nil]
        | vm_compute; reflexivity
        | vm_compute; discriminate ].

(** C1 at the test "HiddenFields". *)
Lemma IncludeAll_overlays_source_witness :
  Merge Fixtures.noMethods Fixtures.anyNew
    (pointerArg Fixtures.TestStruct Sample.alice)
    (structArg Fixtures.TestStruct Sample.bob) []
  = Ret (reflect.ValueOf
           (pointerArg Fixtures.TestStruct
              (Fixtures.testStruct "Bob" 25
                 (Fixtures.address "456 New St" "New City" "New Country") true 5 "old")))
        None.
Proof.
  exact (proj1 (IncludeAll_overlays_source Fixtures.noMethods Fixtures.anyNew)
           Fixtures.TestStruct Sample.alice Sample.bob
           eq_refl eq_refl eq_refl eq_refl).
Defined.

(** C2 at the test "ExcludeEmpty": the empty source name keeps "Alice". *)
Lemma ExcludeEmpty_keeps_destination_witness :
  (exists dst',
     mergeValues Fixtures.noMethods Fixtures.anyNew 2
       (reflect.Val (reflect.TPtr Fixtures.TestStruct) (reflect.DPtr (Some Sample.alice))
          Sample.plain)
       (reflect.Val Fixtures.TestStruct Sample.partial Sample.plain)
       (mkConfig ExcludeEmpty [] []) ""
     = Ret dst' None /\
     pointee dst' ≫= (fun x => fieldOf x 0) = Some (reflect.DString "Alice"))
  /\ mergeLeaves Fixtures.noMethods Fixtures.anyNew Fixtures.TestStruct
       Sample.alice Sample.partial (mkConfig ExcludeEmpty [] []) 0
       (reflect.DString "Alice").
Proof.
  split.
  - eexists. split; [vm_compute; reflexivity |].
    apply (proj1 ExcludeEmpty_keeps_destination Fixtures.noMethods Fixtures.anyNew 2%nat
             "TestStruct" Sample.fields (Sample.contents Sample.alice) Sample.plain
             (Sample.contents Sample.partial) Sample.plain (mkConfig ExcludeEmpty [] []) ""
             _ None 0%nat (reflect.mkStructField "Name" true Fixtures.tString)
             (reflect.DString "Alice") (reflect.DString ""));
      witness_side.
  - apply (proj1 (proj2 ExcludeEmpty_keeps_destination) Fixtures.noMethods Fixtures.anyNew
             "TestStruct" Sample.fields (Sample.contents Sample.alice)
             (Sample.contents Sample.partial) (mkConfig ExcludeEmpty [] [])
             0%nat (reflect.mkStructField "Name" true Fixtures.tString)
             (reflect.DString "Alice") (reflect.DString ""));
      witness_side.
Defined.

(** C3 at the test "OverwriteEmpty": the empty age takes the source's 25. *)
Lemma OverwriteEmpty_fills_gaps_witness :
  (exists dst',
     mergeValues Fixtures.noMethods Fixtures.anyNew 2
       (reflect.Val (reflect.TPtr Fixtures.TestStruct) (reflect.DPtr (Some Sample.newcomer))
          Sample.plain)
       (reflect.Val Fixtures.TestStruct Sample.bob Sample.plain)
       (mkConfig OverwriteEmpty [] []) ""
     = Ret dst' None /\
     pointee dst' ≫= (fun x => fieldOf x 1) = Some (reflect.DInt 25))
  /\ mergeLeaves Fixtures.noMethods Fixtures.anyNew Fixtures.TestStruct
       Sample.newcomer Sample.bob (mkConfig OverwriteEmpty [] []) 1 (reflect.DInt 25).
Proof.
  split.
  - eexists. split; [vm_compute; reflexivity |].
    apply (proj1 OverwriteEmpty_fills_gaps Fixtures.noMethods Fixtures.anyNew 2%nat
             "TestStruct" Sample.fields (Sample.contents Sample.newcomer) Sample.plain
             (Sample.contents Sample.bob) Sample.plain (mkConfig OverwriteEmpty [] []) ""
             _ None 1%nat (reflect.mkStructField "Age" true Fixtures.tInt)
             (reflect.DInt 0) (reflect.DInt 25));
      witness_side.
  - apply (proj1 (proj2 OverwriteEmpty_fills_gaps) Fixtures.noMethods Fixtures.anyNew
             "TestStruct" Sample.fields (Sample.contents Sample.newcomer)
             (Sample.contents Sample.bob) (mkConfig OverwriteEmpty [] [])
             1%nat (reflect.mkStructField "Age" true Fixtures.tInt)
             (reflect.DInt 0) (reflect.DInt 25));
      witness_side.
Defined.

(** C4 at the test "Include": Age is not in the include list and stays 30. *)
Lemma include_filter_witness :
  (exists dst',
     mergeValues Fixtures.noMethods Fixtures.anyNew 2
       (reflect.Val (reflect.TPtr Fixtures.TestStruct) (reflect.DPtr (Some Sample.alice))
          Sample.plain)
       (reflect.Val Fixtures.TestStruct Sample.bob Sample.plain)
       (mkConfig IncludeAll ["Name"; "Address.Street"; "Address.Country"; "Count"] []) ""
     = Ret dst' None /\
     pointee dst' ≫= (fun x => fieldOf x 1) = Some (reflect.DInt 30))
  /\ mergeLeaves Fixtures.noMethods Fixtures.anyNew Fixtures.TestStruct
       Sample.alice Sample.bob
       (mkConfig IncludeAll ["Name"; "Address.Street"; "Address.Country"; "Count"] []) 1
       (reflect.DInt 30).
Proof.
  split.
  - eexists. split; [vm_compute; reflexivity |].
    apply (proj1 (proj2 (proj2 include_filter)) Fixtures.noMethods Fixtures.anyNew 2%nat
             "TestStruct" Sample.fields Sample.alice Sample.plain
             Sample.bob Sample.plain
             (mkConfig IncludeAll ["Name"; "Address.Street"; "Address.Country"; "Count"] []) ""
             _ None 1%nat (reflect.mkStructField "Age" true Fixtures.tInt) (reflect.DInt 30));
      witness_side.
  - apply (proj1 (proj2 (proj2 (proj2 include_filter))) Fixtures.noMethods Fixtures.anyNew
             "TestStruct" Sample.fields (Sample.contents Sample.alice)
             (Sample.contents Sample.bob)
             (mkConfig IncludeAll ["Name"; "Address.Street"; "Address.Country"; "Count"] [])
             1%nat (reflect.mkStructField "Age" true Fixtures.tInt) (reflect.DInt 30));
      witness_side.
Defined.

(** C5 at the test "Exclude": Name is excluded, and also included, and
    stays "Alice". *)
Lemma excluded_field_unchanged_witness :
  (exists dst',
     mergeValues Fixtures.noMethods Fixtures.anyNew 2
       (reflect.Val (reflect.TPtr Fixtures.TestStruct) (reflect.DPtr (Some Sample.alice))
          Sample.plain)
       (reflect.Val Fixtures.TestStruct Sample.bob Sample.plain)
       (mkConfig IncludeAll ["Name"] ["Name"; "Age"; "Address.City"]) ""
     = Ret dst' None /\
     pointee dst' ≫= (fun x => fieldOf x 0) = Some (reflect.DString "Alice"))
  /\ mergeLeaves Fixtures.noMethods Fixtures.anyNew Fixtures.TestStruct
       Sample.alice Sample.bob
       (mkConfig IncludeAll ["Name"] ["Name"; "Age"; "Address.City"]) 0
       (reflect.DString "Alice").
Proof.
  split.
  - eexists. split; [vm_compute; reflexivity |].
    apply (proj1 (excluded_field_unchanged Fixtures.noMethods Fixtures.anyNew) 2%nat
             "TestStruct" Sample.fields Sample.alice Sample.plain
             Sample.bob Sample.plain
             (mkConfig IncludeAll ["Name"] ["Name"; "Age"; "Address.City"]) ""
             _ None 0%nat (reflect.mkStructField "Name" true Fixtures.tString)
             (reflect.DString "Alice"));
      first [witness_side | by left].
  - apply (proj2 (excluded_field_unchanged Fixtures.noMethods Fixtures.anyNew)
             "TestStruct" Sample.fields (Sample.contents Sample.alice)
             (Sample.contents Sample.bob)
             (mkConfig IncludeAll ["Name"] ["Name"; "Age"; "Address.City"])
             0%nat (reflect.mkStructField "Name" true Fixtures.tString)
             (reflect.DString "Alice"));
      first [witness_side | by left].
Defined.

(** C6 at the three cases of the test "TestMergeErrors". *)
Lemma Merge_validation_order_witness :
  Merge Fixtures.noMethods Fixtures.anyNew
    (structArg Fixtures.TestStruct Sample.alice)
    (structArg Fixtures.TestStruct Sample.bob) [mkConfig IncludeAll [] []]
  = Ret (reflect.ValueOf (structArg Fixtures.TestStruct Sample.alice))
        (Some ErrInvalidDestination)
  /\ Merge Fixtures.noMethods Fixtures.anyNew
       (pointerArg Fixtures.TestStruct Sample.alice)
       (pointerArg Fixtures.TestStruct Sample.bob) [mkConfig IncludeAll [] []]
     = Ret (reflect.ValueOf (pointerArg Fixtures.TestStruct Sample.alice))
           (Some ErrInvalidSource)
  /\ Merge Fixtures.noMethods Fixtures.anyNew
       (pointerArg Fixtures.TestStruct Sample.alice)
       (structArg (reflect.TStruct "" [reflect.mkStructField "Foo" true Fixtures.tString])
          (reflect.DStruct [reflect.DString ""]))
       [mkConfig IncludeAll [] []]
     = Ret (reflect.ValueOf (pointerArg Fixtures.TestStruct Sample.alice))
           (Some ErrTypeMismatch).
Proof.
  split; [| split].
  - apply (proj1 (Merge_validation_order Fixtures.noMethods Fixtures.anyNew _ _ _)).
    intros (T & d & H & _). discriminate H.
  - apply (proj1 (proj2 (Merge_validation_order Fixtures.noMethods Fixtures.anyNew _ _ _))).
    + eexists _, _. split; reflexivity.
    + intros (T & d & H & Hk). injection H as <- <-. discriminate Hk.
  - apply (proj1 (proj2 (proj2
             (Merge_validation_order Fixtures.noMethods Fixtures.anyNew _ _ _)))
           Fixtures.TestStruct Sample.alice
           (reflect.TStruct "" [reflect.mkStructField "Foo" true Fixtures.tString])
           (reflect.DStruct [reflect.DString ""]));
      witness_side.
Defined.


(** C9: under [ExcludeEmpty] the zero [When] of the source replaces the
    destination's, while the empty Name does not. *)
Lemma time_Time_copied_wholesale_witness :
  exists dst',
    mergeValues Fixtures.noMethods Fixtures.anyNew 2
      (reflect.Val (reflect.TPtr Event)
         (reflect.DPtr (Some (reflect.DStruct [reflect.DString "launch"; someTime])))
         Sample.plain)
      (reflect.Val Event (reflect.DStruct [reflect.DString ""; zeroTime]) Sample.plain)
      (mkConfig ExcludeEmpty [] []) ""
    = Ret dst' None /\
    pointee dst' ≫= (fun x => fieldOf x 1) = Some zeroTime /\
    pointee dst' ≫= (fun x => fieldOf x 0) = Some (reflect.DString "launch") /\
    mergeLeaves Fixtures.noMethods Fixtures.anyNew Event
      (reflect.DStruct [reflect.DString "launch"; someTime])
      (reflect.DStruct [reflect.DString ""; zeroTime]) (mkConfig ExcludeEmpty [] []) 1
      zeroTime.
Proof.
  eexists. split; [vm_compute; reflexivity |].
  split; [| split; [vm_compute; reflexivity |]].
  - apply (proj1 (proj2 (proj2 (time_Time_copied_wholesale Fixtures.noMethods Fixtures.anyNew)))
             2%nat "Event"
             [ reflect.mkStructField "Name" true (reflect.TBasic "string" reflect.String);
               reflect.mkStructField "When" true time_Time ]
             [reflect.DString "launch"; someTime] Sample.plain
             [reflect.DString ""; zeroTime] Sample.plain
             (mkConfig ExcludeEmpty [] []) "" _ None 1%nat
             (reflect.mkStructField "When" true time_Time) someTime zeroTime);
      witness_side.
  - apply (proj1 (proj2 (proj2 (proj2
             (time_Time_copied_wholesale Fixtures.noMethods Fixtures.anyNew))))
             "Event"
             [ reflect.mkStructField "Name" true (reflect.TBasic "string" reflect.String);
               reflect.mkStructField "When" true time_Time ]
             [reflect.DString "launch"; someTime]
             [reflect.DString ""; zeroTime]
             (mkConfig ExcludeEmpty [] []) 1%nat
             (reflect.mkStructField "When" true time_Time) someTime zeroTime);
      witness_side.
Defined.

(** * Further properties of the code *)

(** ** The loop, field by field *)

Lemma merged_struct cfg n fs prefix ds ss :
  reflect.TStruct n fs <> time_Time ->
  merged cfg (reflect.TStruct n fs) prefix (reflect.DStruct ds) (reflect.DStruct ss)
  = reflect.DStruct (mergedFields cfg prefix fs ds ss).
Proof.
  intros HT. cbn [merged]. rewrite (type_eqb_neq _ _ HT). f_equal. clear HT.
  revert ds ss. induction fs as [| [fn fe ft] r IH]; intros [| x dr] [| y sr]; try done.
  cbn [mergedFields]. by rewrite IH.
Qed.

Lemma merged_time cfg prefix d s : merged cfg time_Time prefix d s = s.
Proof. reflexivity. Qed.

Lemma mergedFields_lookup cfg prefix fs ds ss i f x y :
  fs !! i = Some f -> ds !! i = Some x -> ss !! i = Some y ->
  mergedFields cfg prefix fs ds ss !! i = Some (mergedField cfg prefix f x y).
Proof.
  revert ds ss i. induction fs as [| g r IH]; intros [| x' dr] [| y' sr] i Hf Hx Hy;
    try done.
  destruct i as [| i]; simpl in *; simplify_eq; [done |]. exact (IH _ _ _ Hf Hx Hy).
Qed.

Lemma mergedFields_length cfg prefix fs ds ss :
  length ds = length fs -> length ss = length fs ->
  length (mergedFields cfg prefix fs ds ss) = length fs.
Proof.
  revert ds ss. induction fs as [| g r IH]; intros [| x dr] [| y sr] Hd Hs; try done.
  simpl in *. rewrite IH; lia.
Qed.

(** A loop whose body for field [i] stores [new !! i] leaves [new]. *)
Lemma fieldLoop_fields body T fl (fs : list (reflect.StructField type)) (ds new : list data) :
  length ds = length fs -> length new = length fs ->
  (forall i cur x v,
     (i < length fs)%nat -> cur !! i = Some x -> ds !! i = Some x -> new !! i = Some v ->
     body i (reflect.Val T (reflect.DStruct cur) fl)
     = Ret (reflect.Val T (reflect.DStruct (<[i := v]> cur)) fl) None) ->
  forall m i cur,
    (i + m = length fs)%nat ->
    length cur = length fs ->
    (forall j, cur !! j = if decide (j < i)%nat then new !! j else ds !! j) ->
    fieldLoop body m i (reflect.Val T (reflect.DStruct cur) fl)
    = Ret (reflect.Val T (reflect.DStruct new) fl) None.
Proof.
  intros Hds Hnew Hbody. induction m as [| m IH]; intros i cur Him Hlen Hcur.
  - simpl. do 3 f_equal. apply list_eq. intros j. rewrite Hcur.
    case_decide as Hj; [done |]. rewrite !lookup_ge_None_2; [done | lia | lia].
  - assert (Hi : (i < length fs)%nat) by lia.
    destruct (lookup_lt_is_Some_2 ds i) as [x Hx]; [lia |].
    destruct (lookup_lt_is_Some_2 new i) as [v Hv]; [lia |].
    assert (Hci : cur !! i = Some x).
    { rewrite Hcur. case_decide; [lia | done]. }
    cbn [fieldLoop]. rewrite (Hbody i cur x v) by done.
    apply IH; [lia | by rewrite length_insert |].
    intros j. destruct (decide (j = i)) as [-> | Hne].
    + rewrite list_lookup_insert_eq by lia. case_decide; [done | lia].
    + rewrite list_lookup_insert_ne by done. rewrite Hcur.
      repeat case_decide; try done; lia.
Qed.

Section Closed.

Variable methods : type -> option Merger.
Variable NewElem : type -> Value.

(** With no [Merge] method in sight, a call of [mergeValues] on well-typed
    records returns nil and leaves [merged]. *)
Lemma mergeValues_merged fuel : forall T d s flp fls cfg prefix,
  (depth T < fuel)%nat ->
  reflect.kindOfType T = reflect.Struct ->
  hasType T d = true -> hasType T s = true ->
  mergerFree methods T = true ->
  reflect.flagRO flp = false -> reflect.flagRO fls = false ->
  mergeValues methods NewElem fuel
    (reflect.Val (reflect.TPtr T) (reflect.DPtr (Some d)) flp) (reflect.Val T s fls)
    cfg prefix
  = Ret (reflect.Val (reflect.TPtr T) (reflect.DPtr (Some (merged cfg T prefix d s))) flp) None.
Proof.
  induction fuel as [| fuel IH]; intros T d s flp fls cfg prefix Hfuel HT Hd Hs HM Hro Hsro;
    [lia |].
  destruct (reflect.type_eqb T time_Time) eqn:Htime.
  { apply type_eqb_eq in Htime as ->. by rewrite mergeValues_time. }
  assert (T <> time_Time) as HnT by (intros ->; by rewrite type_eqb_refl in Htime).
  destruct (hasType_struct_inv _ _ HT Hd) as (n & fs & ds & -> & -> & Hds).
  destruct s as [| | | | | | | | | | | | ss]; try done.
  rewrite hasType_struct in Hs. rename Hs into Hss.
  rewrite mergerFree_struct in HM. apply andb_true_iff in HM as [HM HMfs].
  apply bool_decide_eq_true in HM.
  rewrite mergeValues_walk by done. rewrite merged_struct by done.
  pose proof (hasTypeFields_length _ _ Hds) as Hlds.
  pose proof (hasTypeFields_length _ _ Hss) as Hlss.
  unfold elemOf. rewrite Hro.
  rewrite (fieldLoop_fields _ _ _ fs ds (mergedFields cfg prefix fs ds ss) Hlds);
    [done | by apply mergedFields_length | | lia | done |].
  2:{ intros j. case_decide; [lia | done]. }
  intros i cur x v Hi Hci Hx Hv.
  destruct (lookup_lt_is_Some_2 fs i Hi) as [f Hf].
  destruct (hasTypeFields_lookup _ _ _ _ Hds Hf) as (x' & Hx' & Htx).
  destruct (hasTypeFields_lookup _ _ _ _ Hss Hf) as (y & Hy & Hty). simplify_eq.
  rewrite (mergedFields_lookup _ _ _ _ _ _ _ _ _ Hf Hx Hy) in Hv. simplify_eq.
  pose proof (mergerFreeFields_lookup _ _ _ _ HMfs Hf) as HMf.
  pose proof (mergerFree_None _ _ HMf) as HMp.
  unfold mergeField, mergedField, skipped. cbn [reflect.TypeField]. rewrite Hf.
  destruct (bool_decide (0 < length (Include cfg)) && _); [by rewrite list_insert_id |].
  cbn [orb]. destruct (index _ _); [by rewrite list_insert_id |].
  rewrite (Field_struct _ _ _ _ _ _ _ Hf Hci), (Field_struct _ _ _ _ _ _ _ Hf Hy).
  unfold addrImplements.
  cbn [reflect.CanAddr reflect.Addr reflect.flagAddr reflect.flagRO reflect.CanSet
       reflect.KindOf].
  rewrite HMp, Hsro. rewrite (bool_decide_eq_false_2 (is_Some None)) by (by intros [? ?]).
  destruct (reflect.Exported f) eqn:Hex; cbn [orb negb andb].
  2:{ by rewrite list_insert_id. }
  case_bool_decide as Hk.
  - rewrite IH; try done.
    apply (depth_field n) in Hf. simpl in *. lia.
  - destruct (isEmpty_total _ _ Htx) as [bx Hbx].
    destruct (isEmpty_total _ _ Hty) as [by' Hby].
    unfold setsLeaf, shouldSet. rewrite !isZero_isEmpty, Hbx, Hby.
    cbn [reflect.SetValue reflect.CanSet reflect.flagAddr reflect.flagRO negb andb].
    rewrite type_eqb_refl. cbn [andb].
    repeat case_bool_decide; simpl; destruct bx, by'; simpl;
      first [ by rewrite list_insert_id | done ].
Qed.

Lemma Merge_merged T d s cfg :
  reflect.kindOfType T = reflect.Struct ->
  hasType T d = true -> hasType T s = true ->
  mergerFree methods T = true ->
  Merge methods NewElem (pointerArg T d) (structArg T s) cfg
  = Ret (reflect.ValueOf (pointerArg T (merged (configOf cfg) T "" d s))) None.
Proof.
  intros HT Hd Hs HM. unfold Merge, pointerArg, structArg, fuelFor.
  cbn [reflect.ValueOf]. fold (configOf cfg).
  apply mergeValues_merged; try done. simpl. lia.
Qed.

End Closed.

(** ** Configurations that the merge does not tell apart *)

Section Config.

Variable methods : type -> option Merger.
Variable NewElem : type -> Value.

(** A policy that is neither [ExcludeEmpty] nor [OverwriteEmpty]. *)
Lemma mergeField_config rec1 rec2 cfg cfg' prefix src j w :
  (forall d s p, rec1 d s p = rec2 d s p) ->
  makeSet (Include cfg) = makeSet (Include cfg') ->
  (Include cfg = [] <-> Include cfg' = []) ->
  makeSet (Exclude cfg) = makeSet (Exclude cfg') ->
  (Option cfg = Option cfg' \/
   (Option cfg <> ExcludeEmpty /\ Option cfg <> OverwriteEmpty /\
    Option cfg' <> ExcludeEmpty /\ Option cfg' <> OverwriteEmpty)) ->
  mergeField methods rec1 cfg prefix (makeSet (Include cfg)) (makeSet (Exclude cfg)) src j w
  = mergeField methods rec2 cfg' prefix (makeSet (Include cfg')) (makeSet (Exclude cfg')) src j w.
Proof.
  intros Hrec Hinc Hnil Hexc Hopt. unfold mergeField. rewrite <- Hinc, <- Hexc.
  assert (Hlen : bool_decide (0 < length (Include cfg))%nat
                 = bool_decide (0 < length (Include cfg'))%nat).
  { apply bool_decide_ext. destruct (Include cfg), (Include cfg'); simpl; try lia;
      destruct Hnil as [H1 H2]; try (by discriminate H1); by discriminate H2. }
  rewrite <- Hlen.
  destruct (reflect.TypeField w j) as [field |]; [| done].
  destruct (bool_decide (0 < length (Include cfg))%nat && _); [done |].
  destruct (index _ _); [done |].
  destruct (reflect.Field w j) as [dstField |]; [| done].
  destruct (reflect.Field src j) as [srcField |]; [| done].
  destruct (addrImplements methods dstField); [done |].
  destruct (negb (reflect.CanSet dstField)); [done |].
  destruct (bool_decide (reflect.KindOf dstField = reflect.Struct)).
  { destruct (reflect.Addr dstField); [| done]. by rewrite Hrec. }
  destruct Hopt as [-> | (H1 & H2 & H3 & H4)]; [done |].
  rewrite !bool_decide_eq_false_2 by done.
  by rewrite (bool_decide_eq_false_2 (Option cfg' = ExcludeEmpty)),
       (bool_decide_eq_false_2 (Option cfg' = OverwriteEmpty)) by done.
Qed.

#[local] Arguments mergeValues _ _ !_ _ _ _ _ /.

Lemma mergeValues_config cfg cfg' :
  makeSet (Include cfg) = makeSet (Include cfg') ->
  (Include cfg = [] <-> Include cfg' = []) ->
  makeSet (Exclude cfg) = makeSet (Exclude cfg') ->
  (Option cfg = Option cfg' \/
   (Option cfg <> ExcludeEmpty /\ Option cfg <> OverwriteEmpty /\
    Option cfg' <> ExcludeEmpty /\ Option cfg' <> OverwriteEmpty)) ->
  forall fuel dst src prefix,
    mergeValues methods NewElem fuel dst src cfg prefix
    = mergeValues methods NewElem fuel dst src cfg' prefix.
Proof.
  intros Hinc Hnil Hexc Hopt. induction fuel as [| fuel IH]; intros dst src prefix; [done |].
  cbn [mergeValues].
  destruct (negb _ || negb _); [done |].
  destruct (reflect.IsNil dst) as [isnil |]; [| done].
  destruct (if isnil then _ else _) as [ptr |]; [| done].
  destruct (negb (bool_decide (reflect.KindOf src = reflect.Struct))); [done |].
  destruct (reflect.TypeOf (reflect.Elem ptr)) as [dt |]; [| done].
  destruct (reflect.TypeOf src) as [st |]; [| done].
  destruct (negb (reflect.type_eqb dt st)); [done |].
  destruct (reflect.CanInterface (reflect.Elem ptr) && isTime (reflect.Elem ptr)); [done |].
  destruct (addrImplements methods (reflect.Elem ptr)); [done |].
  erewrite fieldLoop_ext; [done | |].
  - intros j w _. by apply mergeField_config.
  - intros j w w' e Hb. by apply mergeField_frame in Hb as [Hs _].
Qed.

#[local] Arguments mergeValues : simpl never.

End Config.

(** ** The algebra of [merged] *)

Lemma skipped_passesFilters cfg full : skipped cfg full = false <-> passesFilters cfg full.
Proof.
  unfold skipped, passesFilters. rewrite index_makeSet.
  rewrite orb_false_iff, andb_false_iff, bool_decide_eq_false, negb_false_iff,
    bool_decide_eq_false.
  split; intros [H1 H2]; (split; [| done]).
  - destruct H1 as [H1 | H1]; [left | by right].
    destruct (Include cfg); [done | simpl in H1; lia].
  - destruct H1 as [-> | H1]; [left; simpl; lia | by right].
Qed.

Lemma skipped_no_filters cfg full :
  Include cfg = [] -> Exclude cfg = [] -> skipped cfg full = false.
Proof.
  intros Hi He. apply skipped_passesFilters. split; [by left |].
  rewrite He. apply not_elem_of_nil.
Qed.

(** A policy other than [ExcludeEmpty] and [OverwriteEmpty] sets every
    leaf. *)
Lemma setsLeaf_always cfg t d s :
  Option cfg <> ExcludeEmpty -> Option cfg <> OverwriteEmpty -> setsLeaf cfg t d s = true.
Proof.
  intros H1 H2. unfold setsLeaf, shouldSet. by rewrite !bool_decide_eq_false_2 by done.
Qed.

Lemma setsLeaf_idem cfg t x y :
  hasType t x = true -> hasType t y = true ->
  (if setsLeaf cfg t (if setsLeaf cfg t x y then y else x) y
   then y else if setsLeaf cfg t x y then y else x)
  = if setsLeaf cfg t x y then y else x.
Proof.
  intros Hx Hy.
  destruct (isEmpty_total _ _ Hx) as [bx Hbx], (isEmpty_total _ _ Hy) as [by' Hby].
  unfold setsLeaf, shouldSet. rewrite Hbx, Hby.
  destruct (bool_decide (Option cfg = ExcludeEmpty)),
    (bool_decide (Option cfg = OverwriteEmpty)),
    (bool_decide (Option cfg = IncludeAll)), bx, by';
    simpl; rewrite ?Hbx, ?Hby; simpl; done.
Qed.

Section Algebra.

Variable cfg : Config.

Lemma merged_hasType T : forall prefix d s,
  hasType T d = true -> hasType T s = true -> hasType T (merged cfg T prefix d s) = true.
Proof.
  induction T as [n k | e IH | n fs IH] using type_nested_ind; intros prefix d s Hd Hs;
    try done.
  destruct (reflect.type_eqb (reflect.TStruct n fs) time_Time) eqn:Htime.
  { apply type_eqb_eq in Htime. rewrite Htime in *. by rewrite merged_time. }
  assert (reflect.TStruct n fs <> time_Time) as HnT
    by (intros E; by rewrite E, type_eqb_refl in Htime).
  destruct d as [| | | | | | | | | | | | ds]; try done.
  destruct s as [| | | | | | | | | | | | ss]; try done.
  rewrite merged_struct by done. rewrite hasType_struct in *. clear Htime HnT.
  revert ds ss Hd Hs.
  induction IH as [| f r Hf _ IHr]; intros [| x dr] [| y sr] Hd Hs; try done.
  simpl in Hd, Hs. apply andb_true_iff in Hd as [Hx Hdr], Hs as [Hy Hsr].
  cbn [mergedFields hasTypeFields]. rewrite (IHr _ _ Hdr Hsr), andb_true_r.
  unfold mergedField. repeat case_match; try done. by apply Hf.
Qed.

Lemma merged_idem T : forall prefix d s,
  hasType T d = true -> hasType T s = true ->
  merged cfg T prefix (merged cfg T prefix d s) s = merged cfg T prefix d s.
Proof.
  induction T as [n k | e IH | n fs IH] using type_nested_ind; intros prefix d s Hd Hs;
    try done.
  destruct (reflect.type_eqb (reflect.TStruct n fs) time_Time) eqn:Htime.
  { apply type_eqb_eq in Htime. rewrite Htime in *. by rewrite !merged_time. }
  assert (reflect.TStruct n fs <> time_Time) as HnT
    by (intros E; by rewrite E, type_eqb_refl in Htime).
  destruct d as [| | | | | | | | | | | | ds]; try done.
  destruct s as [| | | | | | | | | | | | ss]; try done.
  rewrite !merged_struct by done. rewrite hasType_struct in *. f_equal. clear Htime HnT.
  revert ds ss Hd Hs.
  induction IH as [| f r Hf _ IHr]; intros [| x dr] [| y sr] Hd Hs; try done.
  simpl in Hd, Hs. apply andb_true_iff in Hd as [Hx Hdr], Hs as [Hy Hsr].
  cbn [mergedFields]. rewrite (IHr _ _ Hdr Hsr). f_equal.
  unfold mergedField.
  destruct (skipped cfg _); [done |]. destruct (negb _); [done |].
  destruct (bool_decide _); [by apply Hf | by apply setsLeaf_idem].
Qed.

Lemma merged_self T : forall prefix d,
  hasType T d = true -> merged cfg T prefix d d = d.
Proof.
  induction T as [n k | e IH | n fs IH] using type_nested_ind; intros prefix d Hd;
    try done.
  destruct (reflect.type_eqb (reflect.TStruct n fs) time_Time) eqn:Htime.
  { apply type_eqb_eq in Htime. rewrite Htime in *. by rewrite !merged_time. }
  assert (reflect.TStruct n fs <> time_Time) as HnT
    by (intros E; by rewrite E, type_eqb_refl in Htime).
  destruct d as [| | | | | | | | | | | | ds]; try done.
  rewrite !merged_struct by done. rewrite hasType_struct in *. f_equal. clear Htime HnT.
  revert ds Hd.
  induction IH as [| f r Hf _ IHr]; intros [| x dr] Hd; try done.
  simpl in Hd. apply andb_true_iff in Hd as [Hx Hdr].
  cbn [mergedFields]. rewrite (IHr _ Hdr). f_equal.
  unfold mergedField. repeat case_match; try done. by apply Hf.
Qed.

(** Without include and exclude lists the path prefix plays no part. *)
Lemma merged_prefix T : forall prefix prefix' d s,
  Include cfg = [] -> Exclude cfg = [] ->
  merged cfg T prefix d s = merged cfg T prefix' d s.
Proof.
  induction T as [n k | e IH | n fs IH] using type_nested_ind;
    intros prefix prefix' d s Hi He; try done.
  destruct (reflect.type_eqb (reflect.TStruct n fs) time_Time) eqn:Htime.
  { apply type_eqb_eq in Htime. rewrite Htime in *. by rewrite !merged_time. }
  assert (reflect.TStruct n fs <> time_Time) as HnT
    by (intros E; by rewrite E, type_eqb_refl in Htime).
  destruct d as [| | | | | | | | | | | | ds]; try (cbn [merged]; by rewrite Htime).
  destruct s as [| | | | | | | | | | | | ss]; try (cbn [merged]; by rewrite Htime).
  rewrite !merged_struct by done. f_equal. clear Htime HnT.
  revert ds ss.
  induction IH as [| f r Hf _ IHr]; intros [| x dr] [| y sr]; try done.
  cbn [mergedFields]. rewrite (IHr dr sr). f_equal.
  unfold mergedField. rewrite !skipped_no_filters by done.
  destruct (negb _); [done |]. destruct (bool_decide _); [by apply Hf | done].
Qed.

(** When the policy sets every leaf, the last source wins. *)
Lemma merged_absorb T : forall prefix d s s',
  Option cfg <> ExcludeEmpty -> Option cfg <> OverwriteEmpty ->
  hasType T d = true -> hasType T s = true -> hasType T s' = true ->
  merged cfg T prefix (merged cfg T prefix d s) s' = merged cfg T prefix d s'.
Proof.
  induction T as [n k | e IH | n fs IH] using type_nested_ind;
    intros prefix d s s' H1 H2 Hd Hs Hs'; try done.
  destruct (reflect.type_eqb (reflect.TStruct n fs) time_Time) eqn:Htime.
  { apply type_eqb_eq in Htime. rewrite Htime in *. by rewrite !merged_time. }
  assert (reflect.TStruct n fs <> time_Time) as HnT
    by (intros E; by rewrite E, type_eqb_refl in Htime).
  destruct d as [| | | | | | | | | | | | ds]; try done.
  destruct s as [| | | | | | | | | | | | ss]; try done.
  destruct s' as [| | | | | | | | | | | | ss']; try done.
  rewrite !merged_struct by done. rewrite hasType_struct in *. f_equal. clear Htime HnT.
  revert ds ss ss' Hd Hs Hs'.
  induction IH as [| f r Hf _ IHr]; intros [| x dr] [| y sr] [| y' sr'] Hd Hs Hs'; try done.
  simpl in Hd, Hs, Hs'.
  apply andb_true_iff in Hd as [Hx Hdr], Hs as [Hy Hsr], Hs' as [Hy' Hsr'].
  cbn [mergedFields]. rewrite (IHr _ _ _ Hdr Hsr Hsr'). f_equal.
  unfold mergedField.
  destruct (skipped cfg _); [done |]. destruct (negb _); [done |].
  destruct (bool_decide _); [by apply Hf |].
  by rewrite !setsLeaf_always.
Qed.

End Algebra.

(** ** Fields that no filter lets through *)

Lemma fieldLoop_idle body v : forall m i,
  (forall j, (i <= j < i + m)%nat -> body j v = Ret v None) ->
  fieldLoop body m i v = Ret v None.
Proof.
  induction m as [| m IH]; intros i Hbody; [done |].
  cbn [fieldLoop]. rewrite Hbody by lia. apply IH. intros j Hj. apply Hbody. lia.
Qed.

Lemma mergeField_skipped methods rec cfg prefix src n fs d fl i f :
  fs !! i = Some f ->
  skipped cfg (prefix +:+ reflect.Name f) = true ->
  mergeField methods rec cfg prefix (makeSet (Include cfg)) (makeSet (Exclude cfg)) src i
    (reflect.Val (reflect.TStruct n fs) d fl)
  = Ret (reflect.Val (reflect.TStruct n fs) d fl) None.
Proof.
  intros Hf Hskip. unfold mergeField. cbn [reflect.TypeField]. rewrite Hf.
  unfold skipped in Hskip.
  destruct (bool_decide (0 < length (Include cfg))%nat && _); [done |].
  cbn [orb] in Hskip. by rewrite Hskip.
Qed.

Lemma mergedFields_skipped cfg prefix fs : forall ds ss,
  length ds = length fs -> length ss = length fs ->
  (forall g, g ∈ fs -> skipped cfg (prefix +:+ reflect.Name g) = true) ->
  mergedFields cfg prefix fs ds ss = ds.
Proof.
  induction fs as [| f r IH]; intros [| x dr] [| y sr] Hd Hs Hskip; try done.
  cbn [mergedFields]. unfold mergedField. rewrite Hskip by left.
  f_equal. apply IH; simpl in *; [lia | lia |]. intros g Hg. apply Hskip. by right.
Qed.

(** A path below the top level passes the include filter only as an entry
    of the list. *)
Lemma shouldInclude_nested p name include :
  (p +:+ ".") +:+ name ∉ include ->
  shouldInclude ((p +:+ ".") +:+ name) (makeSet include) = false.
Proof.
  intros Hnot. destruct (shouldInclude _ _) eqn:E; [| done].
  apply shouldInclude_spec in E as [Hin | [Hc _]]; [done |].
  by rewrite Contains_nested in Hc.
Qed.

Lemma makeSet_ext l l' : (forall x, x ∈ l <-> x ∈ l') -> makeSet l = makeSet l'.
Proof.
  intros H. apply map_eq. intros k. unfold makeSet. rewrite !makeSet_lookup_from.
  by rewrite (bool_decide_ext _ _ (H k)).
Qed.

Lemma nil_ext (l l' : list string) : (forall x, x ∈ l <-> x ∈ l') -> (l = [] <-> l' = []).
Proof.
  intros H. split; intros ->.
  - destruct l' as [| a r]; [done |]. exfalso. eapply not_elem_of_nil, H. left.
  - destruct l as [| a r]; [done |]. exfalso. eapply not_elem_of_nil, H. left.
Qed.

(** ** Properties of [Merge] beyond the specification *)

(** X1.  On a destination and a source of one struct type in which no type
    has a [Merge] method, [Merge] returns nil under every configuration: no
    error and no panic; and the destination it leaves is again a value of
    that type. *)
Theorem Merge_succeeds methods NewElem T d s cfg :
  reflect.kindOfType T = reflect.Struct ->
  hasType T d = true -> hasType T s = true ->
  mergerFree methods T = true ->
  exists d',
    Merge methods NewElem (pointerArg T d) (structArg T s) cfg
    = Ret (reflect.ValueOf (pointerArg T d')) None
    /\ hasType T d' = true.
Proof.
  intros HT Hd Hs HM. eexists. split; [by apply Merge_merged |].
  by apply merged_hasType.
Qed.

(** X2.  [Merge] is idempotent: merging the same source a second time,
    under the same configuration, changes nothing. *)
Theorem Merge_idempotent methods NewElem T d s cfg :
  reflect.kindOfType T = reflect.Struct ->
  hasType T d = true -> hasType T s = true ->
  mergerFree methods T = true ->
  exists d',
    Merge methods NewElem (pointerArg T d) (structArg T s) cfg
    = Ret (reflect.ValueOf (pointerArg T d')) None
    /\ Merge methods NewElem (pointerArg T d') (structArg T s) cfg
       = Ret (reflect.ValueOf (pointerArg T d')) None.
Proof.
  intros HT Hd Hs HM. eexists. split; [by apply Merge_merged |].
  rewrite Merge_merged; try done; [| by apply merged_hasType].
  by rewrite merged_idem.
Qed.

(** X3.  Merging a record into a copy of itself changes nothing, under
    every configuration. *)
Theorem Merge_self methods NewElem T d cfg :
  reflect.kindOfType T = reflect.Struct ->
  hasType T d = true ->
  mergerFree methods T = true ->
  Merge methods NewElem (pointerArg T d) (structArg T d) cfg
  = Ret (reflect.ValueOf (pointerArg T d)) None.
Proof.
  intros HT Hd HM. rewrite Merge_merged by done. by rewrite merged_self.
Qed.

(** X4.  On well-typed records of a struct type, not [time.Time], in
    which no type has a [Merge] method, and without include and exclude
    lists, the merge is compositional: an exported field of struct kind
    holds, after [Merge], what [Merge] with the same configuration leaves
    when it is called on that field of the destination and of the
    source. *)
Theorem Merge_nested_field methods NewElem n fs ds ss cfg k f x y :
  let T := reflect.TStruct n fs in
  T <> time_Time ->
  hasType T (reflect.DStruct ds) = true ->
  hasType T (reflect.DStruct ss) = true ->
  mergerFree methods T = true ->
  Include cfg = [] -> Exclude cfg = [] ->
  fs !! k = Some f -> ds !! k = Some x -> ss !! k = Some y ->
  reflect.Exported f = true ->
  reflect.kindOfType (reflect.Typ f) = reflect.Struct ->
  exists x',
    Merge methods NewElem (pointerArg (reflect.Typ f) x) (structArg (reflect.Typ f) y) [cfg]
    = Ret (reflect.ValueOf (pointerArg (reflect.Typ f) x')) None
    /\ mergeLeaves methods NewElem T (reflect.DStruct ds) (reflect.DStruct ss) cfg k x'.
Proof.
  intros T HT Hd Hs HM Hi He Hf Hx Hy Hex Hk. subst T.
  pose proof (hasType_field _ _ _ _ _ _ Hd Hf Hx) as Htx.
  pose proof (hasType_field _ _ _ _ _ _ Hs Hf Hy) as Hty.
  assert (mergerFree methods (reflect.Typ f) = true) as HMf.
  { rewrite mergerFree_struct in HM. apply andb_true_iff in HM as [_ HM].
    by eapply mergerFreeFields_lookup. }
  eexists. split; [by apply Merge_merged |].
  eexists. split; [by apply Merge_merged |].
  cbn [configOf]. rewrite merged_struct by done. cbn [fieldOf].
  rewrite (mergedFields_lookup _ _ _ _ _ _ _ _ _ Hf Hx Hy). f_equal.
  unfold mergedField. rewrite skipped_no_filters by done. rewrite Hex. cbn [negb].
  rewrite bool_decide_eq_true_2 by done. by apply merged_prefix.
Qed.

(** X5.  On well-typed records of a struct type, not [time.Time], in
    which no type has a [Merge] method, an include list selects the fields
    of a nested struct one by one: when the non-empty list holds no path
    made of the name of a top-level struct field (not a [time.Time]), a dot
    and the name of one of its fields, that struct field is left as it was,
    also when the list holds its own name or a longer path through it. *)
Theorem Include_struct_without_children methods NewElem n fs ds ss cfg k f n' fs' x :
  let T := reflect.TStruct n fs in
  T <> time_Time ->
  hasType T (reflect.DStruct ds) = true ->
  hasType T (reflect.DStruct ss) = true ->
  mergerFree methods T = true ->
  Include cfg <> [] ->
  fs !! k = Some f -> ds !! k = Some x ->
  reflect.Typ f = reflect.TStruct n' fs' ->
  reflect.Typ f <> time_Time ->
  (forall g, g ∈ fs' -> (reflect.Name f +:+ ".") +:+ reflect.Name g ∉ Include cfg) ->
  mergeLeaves methods NewElem T (reflect.DStruct ds) (reflect.DStruct ss) cfg k x.
Proof.
  intros T HT Hd Hs HM Hinc Hf Hx Hty Hnt Hnone. subst T.
  destruct (hasTypeFields_lookup fs ss k f) as (y & Hy & Hyt);
    [by rewrite <- (hasType_struct n) | done |].
  pose proof (hasType_field _ _ _ _ _ _ Hd Hf Hx) as Hxt.
  eexists. split; [by apply Merge_merged |].
  cbn [configOf]. rewrite merged_struct by done. cbn [fieldOf].
  rewrite (mergedFields_lookup _ _ _ _ _ _ _ _ _ Hf Hx Hy). f_equal.
  unfold mergedField. destruct (skipped cfg _); [done |].
  destruct (negb _); [done |]. rewrite Hty in *.
  rewrite bool_decide_eq_true_2 by done.
  destruct x as [| | | | | | | | | | | | xs]; try done.
  destruct y as [| | | | | | | | | | | | ys]; try done.
  rewrite hasType_struct in Hxt, Hyt.
  rewrite merged_struct by done. f_equal.
  apply mergedFields_skipped; [by apply hasTypeFields_length .. |].
  intros g Hg. unfold skipped. rewrite shouldInclude_nested by (by apply Hnone).
  rewrite bool_decide_eq_true_2; [done |]. destruct (Include cfg); [done | simpl; lia].
Qed.

(** X6.  [MergeOption] is an [int]: a policy that is none of the three
    constants sets every field that is processed, as [IncludeAll] does. *)
Theorem unknown_policy_is_IncludeAll methods NewElem dst src option include exclude rest :
  option <> ExcludeEmpty -> option <> OverwriteEmpty ->
  Merge methods NewElem dst src (mkConfig option include exclude :: rest)
  = Merge methods NewElem dst src [mkConfig IncludeAll include exclude].
Proof.
  intros H1 H2. unfold Merge. apply mergeValues_config; try done.
  right. by cbn [Option].
Qed.

(** X7.  The include and exclude lists count as sets: the order of their
    entries and repeated entries make no difference to [Merge], and only
    the first configuration of the call is read. *)
Theorem filters_are_sets methods NewElem dst src option include exclude include' exclude'
    rest rest' :
  (forall name, name ∈ include <-> name ∈ include') ->
  (forall name, name ∈ exclude <-> name ∈ exclude') ->
  Merge methods NewElem dst src (mkConfig option include exclude :: rest)
  = Merge methods NewElem dst src (mkConfig option include' exclude' :: rest').
Proof.
  intros Hi He. unfold Merge. apply mergeValues_config; cbn [Include Exclude Option].
  - by apply makeSet_ext.
  - by apply nil_ext.
  - by apply makeSet_ext.
  - by left.
Qed.

(** X8.  When the filters skip every top-level field of a record that is
    walked, [Merge] returns nil and the destination is as it was; no
    [Merge] method of a field is called, so a field on which the call would
    panic does no harm. *)
Theorem Merge_all_skipped methods NewElem n fs d s cfg :
  let T := reflect.TStruct n fs in
  T <> time_Time ->
  methods (reflect.TPtr T) = None ->
  (forall f, f ∈ fs -> ~ passesFilters cfg (reflect.Name f)) ->
  Merge methods NewElem (pointerArg T d) (structArg T s) [cfg]
  = Ret (reflect.ValueOf (pointerArg T d)) None.
Proof.
  intros T HT HM Hskip. unfold Merge, pointerArg, structArg, fuelFor.
  cbn [reflect.ValueOf]. subst T. rewrite mergeValues_walk by done.
  rewrite fieldLoop_idle; [done |].
  intros j Hj. destruct (lookup_lt_is_Some_2 fs j) as [f Hf]; [lia |].
  apply mergeField_skipped with (f := f); [done |].
  destruct (skipped cfg _) eqn:E; [done |].
  apply skipped_passesFilters in E. exfalso. eapply Hskip; [| done].
  by eapply list_elem_of_lookup_2.
Qed.

(** X9.  Under [IncludeAll] (and under any policy that is neither
    [ExcludeEmpty] nor [OverwriteEmpty]) the last source wins: merging [s]
    and then [s'] into a destination leaves what merging [s'] alone
    leaves. *)
Theorem last_source_wins methods NewElem T d s s' cfg :
  reflect.kindOfType T = reflect.Struct ->
  hasType T d = true -> hasType T s = true -> hasType T s' = true ->
  mergerFree methods T = true ->
  Option cfg <> ExcludeEmpty -> Option cfg <> OverwriteEmpty ->
  exists d1 d2,
    Merge methods NewElem (pointerArg T d) (structArg T s) [cfg]
    = Ret (reflect.ValueOf (pointerArg T d1)) None
    /\ Merge methods NewElem (pointerArg T d1) (structArg T s') [cfg]
       = Ret (reflect.ValueOf (pointerArg T d2)) None
    /\ Merge methods NewElem (pointerArg T d) (structArg T s') [cfg]
       = Ret (reflect.ValueOf (pointerArg T d2)) None.
Proof.
  intros HT Hd Hs Hs' HM H1 H2. eexists _, _.
  split; [by apply Merge_merged |].
  split; [apply Merge_merged; try done; by apply merged_hasType |].
  rewrite Merge_merged by done. by rewrite merged_absorb.
Qed.

(** X11.  [Merge] makes up no value: after it, a field that is not of
    struct kind holds what the destination held in it or what the source
    holds in it, under every configuration. *)
Theorem leaf_from_destination_or_source methods NewElem n fs ds ss cfg k f x y :
  let T := reflect.TStruct n fs in
  T <> time_Time ->
  hasType T (reflect.DStruct ds) = true ->
  hasType T (reflect.DStruct ss) = true ->
  mergerFree methods T = true ->
  fs !! k = Some f -> ds !! k = Some x -> ss !! k = Some y ->
  reflect.kindOfType (reflect.Typ f) <> reflect.Struct ->
  mergeLeaves methods NewElem T (reflect.DStruct ds) (reflect.DStruct ss) cfg k x
  \/ mergeLeaves methods NewElem T (reflect.DStruct ds) (reflect.DStruct ss) cfg k y.
Proof.
  intros T HT Hd Hs HM Hf Hx Hy Hk. subst T.
  assert (Hres : fieldOf (merged cfg (reflect.TStruct n fs) "" (reflect.DStruct ds)
                            (reflect.DStruct ss)) k
                 = Some (mergedField cfg "" f x y)).
  { rewrite merged_struct by done. by apply mergedFields_lookup. }
  unfold mergedField in Hres. rewrite (bool_decide_eq_false_2 _ Hk) in Hres.
  destruct (skipped cfg _); [left | destruct (negb _); [left |
    destruct (setsLeaf cfg _ _ _); [right | left]]];
    (eexists; split; [by apply Merge_merged | exact Hres]).
Qed.

(** X12.  The merge as a function.  On well-typed records of one struct
    type in which no type has a [Merge] method, [Merge] returns nil and
    leaves [merged]: the source for a [time.Time]; otherwise, field by
    field, the destination's value when the filters skip the path of the
    field or the field is not exported, the merge of the two fields under
    the path extended by the name and a dot when the field is of struct
    kind, and for a leaf the source's value when the policy sets it and the
    destination's when it does not. *)
Theorem Merge_is_merged methods NewElem T d s cfg :
  reflect.kindOfType T = reflect.Struct ->
  hasType T d = true -> hasType T s = true ->
  mergerFree methods T = true ->
  Merge methods NewElem (pointerArg T d) (structArg T s) [cfg]
  = Ret (reflect.ValueOf (pointerArg T (merged cfg T "" d s))) None.
Proof. intros. by apply Merge_merged. Qed.

(** ** Where a merge can panic *)

Lemma mergersExported_lookup methods n fs i f :
  mergersExported methods (reflect.TStruct n fs) = true ->
  fs !! i = Some f ->
  match methods (reflect.TPtr (reflect.Typ f)) with
  | Some _ => reflect.Exported f = true
  | None =>
      reflect.Exported f = true ->
      reflect.kindOfType (reflect.Typ f) = reflect.Struct ->
      mergersExported methods (reflect.Typ f) = true
  end.
Proof.
  cbn [mergersExported]. revert i.
  induction fs as [| [fn fe ft] r IH]; intros i H Hf; [done |].
  apply andb_true_iff in H as [Hx Hr].
  destruct i as [| i]; simpl in Hf; simplify_eq; [| by eapply IH].
  cbn [reflect.Typ reflect.Exported].
  destruct (methods (reflect.TPtr ft)); [done |].
  intros -> Hk. by rewrite (bool_decide_eq_true_2 _ Hk) in Hx.
Qed.

Section Safe.

Variable methods : type -> option Merger.
Variable NewElem : type -> Value.

Hypothesis Hreturn : methodsReturn methods.

Lemma mergeValues_safe fuel : forall T d s flp fls cfg prefix,
  (depth T < fuel)%nat ->
  reflect.kindOfType T = reflect.Struct ->
  hasType T d = true -> hasType T s = true ->
  mergersExported methods T = true ->
  reflect.flagRO flp = false -> reflect.flagRO fls = false ->
  exists d' e,
    mergeValues methods NewElem fuel
      (reflect.Val (reflect.TPtr T) (reflect.DPtr (Some d)) flp) (reflect.Val T s fls)
      cfg prefix
    = Ret (reflect.Val (reflect.TPtr T) (reflect.DPtr (Some d')) flp) e.
Proof.
  induction fuel as [| fuel IH]; intros T d s flp fls cfg prefix Hfuel HT Hd Hs HM Hro Hsro;
    [lia |].
  destruct (hasType_struct_inv _ _ HT Hd) as (n & fs & ds & -> & -> & Hds).
  destruct s as [| | | | | | | | | | | | ss]; try done.
  rewrite hasType_struct in Hs. rename Hs into Hss.
  rewrite mergeValues_valid by done.
  destruct (_ && _) eqn:Htime.
  { unfold elemOf.
    cbn [reflect.SetValue reflect.CanSet reflect.flagAddr reflect.flagRO].
    rewrite Hro, Hsro, type_eqb_refl. simpl. by eexists _, _. }
  clear Htime. rewrite addrImplements_elemOf.
  destruct (methods (reflect.TPtr (reflect.TStruct n fs))) as [merger |] eqn:Hm.
  { rewrite bool_decide_eq_true_2 by eauto.
    unfold callMerger, elemOf.
    cbn [reflect.Addr reflect.flagAddr reflect.CanInterface reflect.flagRO mbind option_bind].
    rewrite Hro, Hm. cbn [negb mbind option_bind].
    destruct (Hreturn _ _ (reflect.DStruct ds)
                (reflect.Val (reflect.TStruct n fs) (reflect.DStruct ss) fls) Hm) as [r Hr].
    rewrite Hr. simpl. by eexists _, _. }
  rewrite (bool_decide_eq_false_2 (is_Some None)) by (by intros [? ?]).
  pose proof (hasTypeFields_length _ _ Hds) as Hlds.
  pose proof (hasTypeFields_length _ _ Hss) as Hlss.
  unfold elemOf. cbn [reflect.NumField]. rewrite Hro.
  destruct (fieldLoop_returns
              (mergeField methods (fun d s p => mergeValues methods NewElem fuel d s cfg p)
                 cfg prefix (makeSet (Include cfg)) (makeSet (Exclude cfg))
                 (reflect.Val (reflect.TStruct n fs) (reflect.DStruct ss) fls))
              (reflect.TStruct n fs) (reflect.mkFlag false true)
              fs ds Hlds) with (m := length fs) (i := 0%nat) (cur := ds) as [cur' Hloop];
    [| lia | done | done | rewrite Hloop; simpl; by eexists _, _].
  intros i cur x Hi Hlen Hci Hx.
  destruct (lookup_lt_is_Some_2 fs i Hi) as [f Hf].
  destruct (hasTypeFields_lookup _ _ _ _ Hds Hf) as (x' & Hx' & Htx).
  destruct (hasTypeFields_lookup _ _ _ _ Hss Hf) as (y & Hy & Hty). simplify_eq.
  pose proof (mergersExported_lookup _ _ _ _ _ HM Hf) as HMf.
  unfold mergeField. cbn [reflect.TypeField]. rewrite Hf.
  destruct (bool_decide (0 < length (Include cfg)) && _); [exists x; by rewrite list_insert_id |].
  destruct (index _ _); [exists x; by rewrite list_insert_id |].
  rewrite (Field_struct _ _ _ _ _ _ _ Hf Hci), (Field_struct _ _ _ _ _ _ _ Hf Hy).
  unfold addrImplements.
  cbn [reflect.CanAddr reflect.Addr reflect.flagAddr reflect.flagRO reflect.CanSet
       reflect.KindOf andb orb].
  destruct (methods (reflect.TPtr (reflect.Typ f))) as [merger |] eqn:Hmf.
  { rewrite bool_decide_eq_true_2 by eauto. rewrite HMf.
    unfold callMerger.
    cbn [reflect.Addr reflect.flagAddr reflect.CanInterface reflect.flagRO mbind option_bind
         negb].
    rewrite Hmf. cbn [mbind option_bind].
    match goal with
    | |- context [merger x ?v] => destruct (Hreturn _ _ x v Hmf) as [r Hr]
    end.
    rewrite Hr. simpl. by eexists. }
  rewrite (bool_decide_eq_false_2 (is_Some None)) by (by intros [? ?]).
  rewrite Hsro.
  destruct (reflect.Exported f) eqn:Hex; cbn [orb negb andb];
    [| exists x; by rewrite list_insert_id].
  case_bool_decide as Hk.
  - destruct (IH (reflect.Typ f) x y (reflect.mkFlag false false)
                (reflect.mkFlag false (reflect.flagAddr fls)) cfg
                ((prefix +:+ reflect.Name f) +:+ ".")) as (x' & e & Hrec); try done.
    { apply (depth_field n) in Hf. simpl in *. lia. }
    { by apply HMf. }
    rewrite Hrec.
    assert (e = None) as ->.
    { eapply mergeValues_no_error; [exact Hk | exact Hmf | exact Hrec]. }
    simpl. by eexists.
  - destruct (isEmpty_total _ _ Htx) as [bx Hbx].
    destruct (isEmpty_total _ _ Hty) as [by' Hby].
    rewrite !isZero_isEmpty, Hbx, Hby.
    cbn [reflect.SetValue reflect.CanSet reflect.flagAddr reflect.flagRO negb andb].
    rewrite type_eqb_refl. cbn [andb].
    repeat case_bool_decide; simpl; destruct bx, by'; simpl;
      first [ by (exists x; rewrite list_insert_id) | by eexists ].
Qed.

End Safe.

(** X13.  [Merge] panics only through the [Merge] methods of the program.
    On well-typed records of one struct type, when no [Merge] method
    panics and every field whose pointer type has one is exported (in the
    record and in the exported struct fields that are entered), [Merge]
    returns, under every configuration. *)
Theorem Merge_never_panics methods NewElem T d s cfg :
  reflect.kindOfType T = reflect.Struct ->
  hasType T d = true -> hasType T s = true ->
  mergersExported methods T = true ->
  methodsReturn methods ->
  exists d' e,
    Merge methods NewElem (pointerArg T d) (structArg T s) cfg
    = Ret (reflect.ValueOf (pointerArg T d')) e.
Proof.
  intros HT Hd Hs HM Hret. unfold Merge, pointerArg, structArg, fuelFor.
  cbn [reflect.ValueOf]. apply mergeValues_safe; try done. simpl. lia.
Qed.


(** The method [refuse] of the fixture returns on every call. *)
Lemma refusing_returns : methodsReturn DateFixture.refusing.
Proof.
  intros t merger d src H. unfold DateFixture.refusing in H.
  destruct (reflect.type_eqb _ _); simplify_eq. by eexists.
Qed.

(** ** The further properties at the values of the repository's tests *)

(** X1 at the test "ExcludeEmpty". *)
Lemma Merge_succeeds_witness :
  exists d',
    Merge Fixtures.noMethods Fixtures.anyNew
      (pointerArg Fixtures.TestStruct Sample.alice)
      (structArg Fixtures.TestStruct Sample.partial) [mkConfig ExcludeEmpty [] []]
    = Ret (reflect.ValueOf (pointerArg Fixtures.TestStruct d')) None
    /\ hasType Fixtures.TestStruct d' = true.
Proof.
  exact (Merge_succeeds Fixtures.noMethods Fixtures.anyNew Fixtures.TestStruct
           Sample.alice Sample.partial [mkConfig ExcludeEmpty [] []]
           eq_refl eq_refl eq_refl eq_refl).
Defined.

(** X2 at the test "OverwriteEmpty". *)
Lemma Merge_idempotent_witness :
  exists d',
    Merge Fixtures.noMethods Fixtures.anyNew
      (pointerArg Fixtures.TestStruct Sample.newcomer)
      (structArg Fixtures.TestStruct Sample.bob) [mkConfig OverwriteEmpty [] []]
    = Ret (reflect.ValueOf (pointerArg Fixtures.TestStruct d')) None
    /\ Merge Fixtures.noMethods Fixtures.anyNew
         (pointerArg Fixtures.TestStruct d')
         (structArg Fixtures.TestStruct Sample.bob) [mkConfig OverwriteEmpty [] []]
       = Ret (reflect.ValueOf (pointerArg Fixtures.TestStruct d')) None.
Proof.
  exact (Merge_idempotent Fixtures.noMethods Fixtures.anyNew Fixtures.TestStruct
           Sample.newcomer Sample.bob [mkConfig OverwriteEmpty [] []]
           eq_refl eq_refl eq_refl eq_refl).
Defined.

(** X3: the record of the tests merged with itself, under the include
    list of the test "Include". *)
Lemma Merge_self_witness :
  Merge Fixtures.noMethods Fixtures.anyNew
    (pointerArg Fixtures.TestStruct Sample.alice)
    (structArg Fixtures.TestStruct Sample.alice)
    [mkConfig ExcludeEmpty ["Name"; "Address.Street"; "Address.Country"; "Count"] []]
  = Ret (reflect.ValueOf (pointerArg Fixtures.TestStruct Sample.alice)) None.
Proof.
  exact (Merge_self Fixtures.noMethods Fixtures.anyNew Fixtures.TestStruct Sample.alice
           [mkConfig ExcludeEmpty ["Name"; "Address.Street"; "Address.Country"; "Count"] []]
           eq_refl eq_refl eq_refl).
Defined.

(** X4 at the test "ExcludeEmpty": the field Address is the merge of the
    two addresses. *)
Lemma Merge_nested_field_witness :
  exists x',
    Merge Fixtures.noMethods Fixtures.anyNew
      (pointerArg Fixtures.Address (Fixtures.address "123 Old St" "Old City" ""))
      (structArg Fixtures.Address (Fixtures.address "" "New City" "New Country"))
      [mkConfig ExcludeEmpty [] []]
    = Ret (reflect.ValueOf (pointerArg Fixtures.Address x')) None
    /\ mergeLeaves Fixtures.noMethods Fixtures.anyNew Fixtures.TestStruct
         Sample.alice Sample.partial (mkConfig ExcludeEmpty [] []) 2 x'.
Proof.
  apply (Merge_nested_field Fixtures.noMethods Fixtures.anyNew
           "TestStruct" Sample.fields (Sample.contents Sample.alice)
           (Sample.contents Sample.partial) (mkConfig ExcludeEmpty [] []) 2%nat
           (reflect.mkStructField "Address" true Fixtures.Address)
           (Fixtures.address "123 Old St" "Old City" "")
           (Fixtures.address "" "New City" "New Country"));
    witness_side.
Defined.

(** X5: with include = ["Address"] nothing of the address is merged. *)
Lemma Include_struct_without_children_witness :
  mergeLeaves Fixtures.noMethods Fixtures.anyNew Fixtures.TestStruct
    Sample.alice Sample.bob (mkConfig IncludeAll ["Address"] []) 2
    (Fixtures.address "123 Old St" "Old City" "").
Proof.
  apply (Include_struct_without_children Fixtures.noMethods Fixtures.anyNew
           "TestStruct" Sample.fields (Sample.contents Sample.alice)
           (Sample.contents Sample.bob) (mkConfig IncludeAll ["Address"] []) 2%nat
           (reflect.mkStructField "Address" true Fixtures.Address)
           "Address"
           [ reflect.mkStructField "Street" true Fixtures.tString;
             reflect.mkStructField "City" true Fixtures.tString;
             reflect.mkStructField "Country" true Fixtures.tString ]
           (Fixtures.address "123 Old St" "Old City" ""));
    try witness_side.
  intros g Hg Hin. apply list_elem_of_singleton in Hin.
  apply elem_of_cons in Hg as [-> | Hg]; [discriminate Hin |].
  apply elem_of_cons in Hg as [-> | Hg]; [discriminate Hin |].
  apply elem_of_cons in Hg as [-> | Hg]; [discriminate Hin |].
  by apply not_elem_of_nil in Hg.
Defined.

(** X6: the policy 7. *)
Lemma unknown_policy_is_IncludeAll_witness :
  Merge Fixtures.noMethods Fixtures.anyNew
    (pointerArg Fixtures.TestStruct Sample.alice)
    (structArg Fixtures.TestStruct Sample.partial) [mkConfig 7%Z [] []]
  = Ret (reflect.ValueOf
           (pointerArg Fixtures.TestStruct
              (Fixtures.testStruct "" 0 (Fixtures.address "" "New City" "New Country")
                 true 0 "old")))
        None.
Proof.
  rewrite (unknown_policy_is_IncludeAll Fixtures.noMethods Fixtures.anyNew
             (pointerArg Fixtures.TestStruct Sample.alice)
             (structArg Fixtures.TestStruct Sample.partial) 7%Z [] [] []);
    witness_side.
Defined.

(** X7: the include list of the test "Include", reordered and with a
    repeated entry. *)
Lemma filters_are_sets_witness :
  Merge Fixtures.noMethods Fixtures.anyNew
    (pointerArg Fixtures.TestStruct Sample.alice)
    (structArg Fixtures.TestStruct Sample.bob)
    [mkConfig IncludeAll ["Count"; "Name"; "Address.Country"; "Name"; "Address.Street"] []]
  = Merge Fixtures.noMethods Fixtures.anyNew
      (pointerArg Fixtures.TestStruct Sample.alice)
      (structArg Fixtures.TestStruct Sample.bob)
      [mkConfig IncludeAll ["Name"; "Address.Street"; "Address.Country"; "Count"] []].
Proof.
  apply (filters_are_sets Fixtures.noMethods Fixtures.anyNew
           (pointerArg Fixtures.TestStruct Sample.alice)
           (structArg Fixtures.TestStruct Sample.bob) IncludeAll
           ["Count"; "Name"; "Address.Country"; "Name"; "Address.Street"] []
           ["Name"; "Address.Street"; "Address.Country"; "Count"] [] [] []);
    [| done].
  intros name. rewrite !elem_of_cons, !elem_of_nil. tauto.
Defined.

(** X8: with both fields of the [Ledger] excluded, the [Merge] method of
    the unexported [Date] is not called. *)
Lemma Merge_all_skipped_witness :
  Merge DateFixture.methods Fixtures.anyNew
    (pointerArg DateFixture.Ledger (reflect.DStruct [someTime; reflect.DString "Alice"]))
    (structArg DateFixture.Ledger (reflect.DStruct [zeroTime; reflect.DString "Bob"]))
    [mkConfig IncludeAll [] ["stamp"; "Owner"]]
  = Ret (reflect.ValueOf
           (pointerArg DateFixture.Ledger
              (reflect.DStruct [someTime; reflect.DString "Alice"])))
        None.
Proof.
  apply (Merge_all_skipped DateFixture.methods Fixtures.anyNew "Ledger"
           [ reflect.mkStructField "stamp" false DateFixture.Date;
             reflect.mkStructField "Owner" true (reflect.TBasic "string" reflect.String) ]
           (reflect.DStruct [someTime; reflect.DString "Alice"])
           (reflect.DStruct [zeroTime; reflect.DString "Bob"])
           (mkConfig IncludeAll [] ["stamp"; "Owner"]));
    try witness_side.
  intros f Hf [_ Hnot]. apply Hnot. cbn [Exclude].
  apply elem_of_cons in Hf as [-> | Hf]; [by left |].
  apply elem_of_cons in Hf as [-> | Hf]; [right; by left |].
  by apply not_elem_of_nil in Hf.
Defined.

(** X9: two sources merged one after the other into the record of the
    tests. *)
Lemma last_source_wins_witness :
  exists d1 d2,
    Merge Fixtures.noMethods Fixtures.anyNew
      (pointerArg Fixtures.TestStruct Sample.alice)
      (structArg Fixtures.TestStruct Sample.partial) [mkConfig IncludeAll [] ["Age"]]
    = Ret (reflect.ValueOf (pointerArg Fixtures.TestStruct d1)) None
    /\ Merge Fixtures.noMethods Fixtures.anyNew
         (pointerArg Fixtures.TestStruct d1)
         (structArg Fixtures.TestStruct Sample.bob) [mkConfig IncludeAll [] ["Age"]]
       = Ret (reflect.ValueOf (pointerArg Fixtures.TestStruct d2)) None
    /\ Merge Fixtures.noMethods Fixtures.anyNew
         (pointerArg Fixtures.TestStruct Sample.alice)
         (structArg Fixtures.TestStruct Sample.bob) [mkConfig IncludeAll [] ["Age"]]
       = Ret (reflect.ValueOf (pointerArg Fixtures.TestStruct d2)) None.
Proof.
  apply (last_source_wins Fixtures.noMethods Fixtures.anyNew Fixtures.TestStruct
           Sample.alice Sample.partial Sample.bob (mkConfig IncludeAll [] ["Age"]));
    witness_side.
Defined.

(** X11 at the test "ExcludeEmpty", for the field Name. *)
Lemma leaf_from_destination_or_source_witness :
  mergeLeaves Fixtures.noMethods Fixtures.anyNew Fixtures.TestStruct
    Sample.alice Sample.partial (mkConfig ExcludeEmpty [] []) 0 (reflect.DString "Alice")
  \/ mergeLeaves Fixtures.noMethods Fixtures.anyNew Fixtures.TestStruct
       Sample.alice Sample.partial (mkConfig ExcludeEmpty [] []) 0 (reflect.DString "").
Proof.
  apply (leaf_from_destination_or_source Fixtures.noMethods Fixtures.anyNew
           "TestStruct" Sample.fields (Sample.contents Sample.alice)
           (Sample.contents Sample.partial) (mkConfig ExcludeEmpty [] []) 0%nat
           (reflect.mkStructField "Name" true Fixtures.tString)
           (reflect.DString "Alice") (reflect.DString ""));
    witness_side.
Defined.

(** X12 at the test "ExcludeEmpty". *)
Lemma Merge_is_merged_witness :
  Merge Fixtures.noMethods Fixtures.anyNew
    (pointerArg Fixtures.TestStruct Sample.alice)
    (structArg Fixtures.TestStruct Sample.partial) [mkConfig ExcludeEmpty [] []]
  = Ret (reflect.ValueOf
           (pointerArg Fixtures.TestStruct
              (Fixtures.testStruct "Alice" 30
                 (Fixtures.address "123 Old St" "New City" "New Country") true 10 "old")))
        None.
Proof.
  rewrite (Merge_is_merged Fixtures.noMethods Fixtures.anyNew Fixtures.TestStruct
             Sample.alice Sample.partial (mkConfig ExcludeEmpty [] []));
    witness_side.
Defined.

(** X13: a [Plan] whose [Date] has a [Merge] method that refuses. *)
Lemma Merge_never_panics_witness :
  exists d' e,
    Merge DateFixture.refusing Fixtures.anyNew
      (pointerArg DateFixture.Plan (reflect.DStruct [someTime; DateFixture.bytes [72; 105]%Z]))
      (structArg DateFixture.Plan (reflect.DStruct [zeroTime; DateFixture.bytes [79; 75]%Z]))
      [mkConfig OverwriteEmpty [] []]
    = Ret (reflect.ValueOf (pointerArg DateFixture.Plan d')) e.
Proof.
  exact (Merge_never_panics DateFixture.refusing Fixtures.anyNew DateFixture.Plan
           (reflect.DStruct [someTime; DateFixture.bytes [72; 105]%Z])
           (reflect.DStruct [zeroTime; DateFixture.bytes [79; 75]%Z])
           [mkConfig OverwriteEmpty [] []]
           eq_refl eq_refl eq_refl eq_refl refusing_returns).
Defined.

